(** * Boardcamp: the rental handlers of [src/server.js]

    A shallow embedding of the three rental routes
    ([POST /rentals], [POST /rentals/:id/return], [DELETE /rentals/:id])
    over an explicit relational store, and the properties of the rental
    lifecycle checked against it; then the listing of rentals and the
    routes of categories, games and customers. *)

From Stdlib Require Import Ascii String.
From Stdlib Require Import List ZArith QArith Lia Bool.
From Stdlib Require Qcanon.
From Stdlib Require Import Qfield Qround Permutation.
Import ListNotations.

Open Scope Z_scope.

(** ** Values *)

(** A body field as [express.json()] hands it over.  [JNum q] is a JSON
    number, a double, named by the decimal [q] that JavaScript prints for
    it; arithmetic on it goes through doubles (see below).  [JOther] is a
    value that is not a number and that [joi.number()] refuses.  A string
    that spells a number, which joi would convert, is not among the
    values modelled. *)
Inductive jsval : Type :=
| JUndefined
| JNum (q : Q)
| JOther.

(** [req.params.id] as PostgreSQL sees it in [WHERE id = $1]: text that
    reads as an integer the column can hold, or text for which the query
    raises (no integer, or one out of the column's range). *)
Inductive idParam : Type :=
| IdInt (n : Z)
| IdMalformed.

(** A calendar date ['YYYY-MM-DD'], as a day number.  [dayjs(..).add(n,'day')]
    is [+ n] and [a.diff(b,'day')] is [a - b] on such dates. *)
Definition date : Type := Z.

(** ** JavaScript numbers

    A number is an IEEE 754 double.  Wherever a number is kept (a body
    field, a column) it is named by the decimal that JavaScript prints
    for it, which is also the text the driver sends to PostgreSQL; an
    operation reads its operands as doubles, rounds its exact result to
    the nearest double and names that double in turn. *)

(** [Number.MAX_SAFE_INTEGER], and the bounds of a PostgreSQL [integer]. *)
Definition max_safe_integer : Z := 9007199254740991.
Definition int4_min : Z := -2147483648.
Definition int4_max : Z := 2147483647.

Definition in_int4 (n : Z) : Prop := int4_min <= n <= int4_max.

(** [floor (log2 (p / q))] *)
Definition floor_log2 (p q : positive) : Z :=
  let k0 := Z.log2 (Zpos p) - Z.log2 (Zpos q) in
  if Zpos q * 2 ^ Z.max 0 k0 <=? Zpos p * 2 ^ Z.max 0 (- k0)
  then k0 else k0 - 1.

(** [n / d] rounded to the nearest integer, a tie going to the even one. *)
Definition round_half_even (n d : Z) : Z :=
  let f := n / d in
  match 2 * (n mod d) ?= d with
  | Lt => f
  | Gt => f + 1
  | Eq => if Z.even f then f else f + 1
  end.

(** The double nearest to [p / q]: 53 significant bits, the last of
    weight [2 ^ e] with [e] at least -1074; [None] when that is an
    infinity. *)
Definition round64_pos (p q : positive) : option Q :=
  let e := Z.max (floor_log2 p q - 52) (-1074) in
  let m := round_half_even (Zpos p * 2 ^ Z.max 0 (- e))
                           (Zpos q * 2 ^ Z.max 0 e) in
  if 2 ^ 1024 * 2 ^ Z.max 0 (- e) <=? m * 2 ^ Z.max 0 e
  then None
  else Some (Qred (Qmake (m * 2 ^ Z.max 0 e) (Z.to_pos (2 ^ Z.max 0 (- e))))).

(** The exact value of the double that a decimal reads as. *)
Definition round64 (x : Q) : option Q :=
  let r := Qred x in
  match Qnum r with
  | Z0 => Some 0%Q
  | Zpos p => round64_pos p (Qden r)
  | Zneg p => option_map Qopp (round64_pos p (Qden r))
  end.

Definition round_trips (x c : Q) : bool :=
  match round64 c with
  | Some y => Qeq_bool y x
  | None => false
  end.

(** The power of ten [u] with [u <= x < 10 u], for [x > 0]. *)
Fixpoint leading_unit_down (fuel : nat) (x u : Q) : Q :=
  match fuel with
  | O => u
  | S f => if Qle_bool u x then u else leading_unit_down f x (u / 10)
  end.

Fixpoint leading_unit_up (fuel : nat) (x u : Q) : Q :=
  match fuel with
  | O => u
  | S f => if Qle_bool (u * 10) x then leading_unit_up f x (u * 10) else u
  end.

Definition leading_unit (x : Q) : Q :=
  if Qle_bool 1 x then leading_unit_up 400 x 1
  else leading_unit_down 400 x 1.

(** The shortest decimal that reads back as the double [x > 0], found
    digit by digit; [u] is the weight of the last digit tried.  Seventeen
    digits always do. *)
Fixpoint shortest_digits (fuel : nat) (x u : Q) : Q :=
  match fuel with
  | O => x
  | S f =>
    let lo := (inject_Z (Qfloor (x / u)) * u)%Q in
    let hi := (lo + u)%Q in
    match round_trips x lo, round_trips x hi with
    | true, true =>
      match (x - lo ?= hi - x)%Q with
      | Lt => lo
      | Gt => hi
      | Eq => if Z.even (Qfloor (x / u)) then lo else hi
      end
    | true, false => lo
    | false, true => hi
    | false, false => shortest_digits f x (u / 10)
    end
  end.

Definition is_safe_integer (x : Q) : bool :=
  Pos.eqb (Qden (Qred x)) 1
  && (Z.abs (Qnum (Qred x)) <=? max_safe_integer + 1).

(** [Number::toString]: the decimal JavaScript prints for the double of
    exact value [x].  An integer up to [2 ^ 53] is printed digit for
    digit. *)
Definition number_text (x : Q) : Q :=
  if is_safe_integer x then Qred x
  else
    match Qnum x with
    | Z0 => 0%Q
    | Zpos _ => Qred (shortest_digits 20 x (leading_unit x))
    | Zneg _ => Qred (- shortest_digits 20 (- x) (leading_unit (- x)))
    end.

(** [x * y]; [None] when the product is not a finite number. *)
Definition js_mul (x y : Q) : option Q :=
  match round64 x, round64 y with
  | Some a, Some b => option_map number_text (round64 (a * b))
  | _, _ => None
  end.

(** [x / y]; [None] when the quotient is not a finite number, as it is
    for a zero divisor. *)
Definition js_div (x y : Q) : option Q :=
  match round64 x, round64 y with
  | Some a, Some b =>
    if Qeq_bool b 0 then None else option_map number_text (round64 (a / b))
  | _, _ => None
  end.

(** ** Tables *)

(** The columns of [games] that the rental routes read. *)
Record game : Type := mkGame {
  g_id : Z;
  stockTotal : Z;
  pricePerDay : Q
}.

Record customer : Type := mkCustomer {
  c_id : Z
}.

Record rental : Type := mkRental {
  r_id : Z;
  customerId : Z;
  gameId : Z;
  rentDate : date;
  daysRented : Z;
  returnDate : option date;
  originalPrice : Q;
  delayFee : option Q
}.

(** The store behind [connection]; [rentals_seq] is the serial that
    numbers the rows of [rentals], and [writes] counts the INSERT, UPDATE
    and DELETE statements executed so far (it is not read by any query). *)
Record store : Type := mkStore {
  games : list game;
  customers : list customer;
  rentals : list rental;
  rentals_seq : Z;
  writes : nat
}.

(** ** The handler monad: store passing, early [return res.send(..)], [throw] *)

Inductive outcome (A : Type) : Type :=
| Val (a : A)
| Sent (status : Z)
| Thrown.
Arguments Val {A} a.
Arguments Sent {A} status.
Arguments Thrown {A}.

Definition M (A : Type) : Type := store -> outcome A * store.

Definition ret {A : Type} (a : A) : M A := fun s => (Val a, s).

Definition bind {A B : Type} (m : M A) (k : A -> M B) : M B :=
  fun s =>
    match m s with
    | (Val a, s') => k a s'
    | (Sent n, s') => (Sent n, s')
    | (Thrown, s') => (Thrown, s')
    end.

Declare Scope handler_scope.
Delimit Scope handler_scope with handler.
Notation "x <- m ;; k" := (bind m (fun x => k))
  (at level 100, m at next level, right associativity) : handler_scope.
Notation "m ;; k" := (bind m (fun _ => k))
  (at level 100, right associativity) : handler_scope.

(** [return res.send(n)] *)
Definition send {A : Type} (n : Z) : M A := fun s => (Sent n, s).

Definition throw {A : Type} : M A := fun s => (Thrown, s).

(** [if (c) { return res.send(n) }] *)
Definition when (c : bool) (m : M unit) : M unit :=
  if c then m else ret tt.

(** [try { m } catch { return res.send(500) }] *)
Definition try_catch500 {A : Type} (m : M A) : M A :=
  fun s =>
    match m s with
    | (Thrown, s') => (Sent 500, s')
    | r => r
    end.

(** What the client observes of a handler: the status sent, if any,
    and the store it leaves. *)
Definition serve (m : M unit) (s : store) : option Z * store :=
  match m s with
  | (Sent n, s') => (Some n, s')
  | (_, s') => (None, s')
  end.

(** [rows[0].field]: reading a field of [undefined] raises a TypeError. *)
Definition row0 {A : Type} (rows : list A) : M A :=
  match rows with
  | [] => throw
  | r :: _ => ret r
  end.

(** ** Queries *)

(** Modelled from the spec: the schema of the tables is not among the
    sources; by the data model the ids, [stockTotal] and [daysRented] are
    integers.  A number bound to an [integer] column must be integral and
    within its bounds: PostgreSQL refuses any other value and the query
    raises. *)
Definition asInteger (q : Q) : option Z :=
  let r := Qred q in
  if Pos.eqb (Qden r) 1
     && (int4_min <=? Qnum r) && (Qnum r <=? int4_max)
  then Some (Qnum r) else None.

Definition intParam (q : Q) : M Z :=
  match asInteger q with
  | Some n => ret n
  | None => throw
  end.

Definition idValue (p : idParam) : M Z :=
  match p with
  | IdInt n => ret n
  | IdMalformed => throw
  end.

(** [SELECT .. FROM games WHERE id = $1] *)
Definition select_games_by_id (p : Q) : M (list game) :=
  (n <- intParam p ;;
   fun s => (Val (filter (fun g => g_id g =? n) (games s)), s))%handler.

(** [SELECT id FROM customers WHERE id = $1] *)
Definition select_customers_by_id (p : Q) : M (list customer) :=
  (n <- intParam p ;;
   fun s => (Val (filter (fun c => c_id c =? n) (customers s)), s))%handler.

(** [SELECT * FROM rentals WHERE "gameId" = $1] *)
Definition select_rentals_by_gameId (p : Q) : M (list rental) :=
  (n <- intParam p ;;
   fun s => (Val (filter (fun r => gameId r =? n) (rentals s)), s))%handler.

(** [SELECT .. FROM rentals WHERE id = $1] *)
Definition select_rentals_by_id (p : idParam) : M (list rental) :=
  (n <- idValue p ;;
   fun s => (Val (filter (fun r => r_id r =? n) (rentals s)), s))%handler.

(** A price bound to a numeric column; modelled from the spec, by which
    a price is a number: one that is not finite is refused. *)
Definition numericParam (x : option Q) : M Q :=
  match x with
  | Some q => ret q
  | None => throw
  end.

(** The row gets the next value of the serial as [id]; [returnDate] and
    [delayFee], which the statement does not name, are NULL.

    [INSERT INTO rentals ("customerId","gameId","rentDate","daysRented",
    "originalPrice") VALUES ($1,$2,$3,$4,$5)] *)
Definition insert_rental (c g : Q) (d : date) (days : Q) (price : option Q)
  : M unit :=
  (ci <- intParam c ;;
   gi <- intParam g ;;
   di <- intParam days ;;
   pr <- numericParam price ;;
   fun s =>
     (Val tt,
      mkStore (games s) (customers s)
        (rentals s ++
           [mkRental (rentals_seq s) ci gi d di None pr None])
        (rentals_seq s + 1)
        (S (writes s))))%handler.

(** [UPDATE rentals SET "returnDate"=$1, "delayFee"=$2 WHERE id = $3];
    the fee is [null] or a number, which must be finite. *)
Definition update_rental_return (rd : date) (delayFee : option (option Q))
           (p : idParam) : M unit :=
  (n <- idValue p ;;
   fee <- match delayFee with
          | None => ret None
          | Some x => (q <- numericParam x ;; ret (Some q))
          end ;;
   fun s =>
     (Val tt,
      mkStore (games s) (customers s)
        (map (fun r =>
                if r_id r =? n
                then mkRental (r_id r) (customerId r) (gameId r) (rentDate r)
                       (daysRented r) (Some rd) (originalPrice r) fee
                else r)
             (rentals s))
        (rentals_seq s)
        (S (writes s))))%handler.

(** [DELETE FROM rentals WHERE id = $1] *)
Definition delete_rental (p : idParam) : M unit :=
  (n <- idValue p ;;
   fun s =>
     (Val tt,
      mkStore (games s) (customers s)
        (filter (fun r => negb (r_id r =? n)) (rentals s))
        (rentals_seq s)
        (S (writes s))))%handler.

(** ** Request validation *)

Record rentalBody : Type := mkBody {
  b_customerId : jsval;
  b_gameId : jsval;
  b_daysRented : jsval
}.

(** [joi.number()] refuses a number beyond the safe integers. *)
Definition is_safe (q : Q) : bool :=
  Qle_bool (inject_Z (- max_safe_integer)) q
  && Qle_bool q (inject_Z max_safe_integer).

(** [joi.number().required()] *)
Definition number_required (v : jsval) : option Q :=
  match v with
  | JNum q => if is_safe q then Some q else None
  | _ => None
  end.

(** [rentalsReqSchema.validate(..)]: [None] is [valid.error]; otherwise
    the three numbers the handler goes on with. *)
Definition rentalsReqSchema (b : rentalBody) : option (Q * Q * Q) :=
  match number_required (b_customerId b),
        number_required (b_gameId b),
        number_required (b_daysRented b) with
  | Some c, Some g, Some d => Some (c, g, d)
  | _, _, _ => None
  end.

(** ** The handlers *)

(** [server.post('/rentals', ..)]; [now] is [dayjs(Date.now())]. *)
Definition postRentals (now : date) (body : rentalBody)
  : store -> option Z * store :=
  serve
    match rentalsReqSchema body with
    | None => send 400
    | Some (customerId, gameId, daysRented) =>
      try_catch500
        (let date := now in
         gamePrice <- select_games_by_id gameId ;;
         g0 <- row0 gamePrice ;;
         let price := js_mul (pricePerDay g0) daysRented in
         customerExists <- select_customers_by_id customerId ;;
         when (length customerExists <=? 0)%nat (send 400) ;;
         gameExists <- select_games_by_id gameId ;;
         when (length gameExists <=? 0)%nat (send 400) ;;
         when (Qle_bool daysRented 0) (send 400) ;;
         stock <- select_games_by_id gameId ;;
         rentedGames <- select_rentals_by_gameId gameId ;;
         stock0 <- row0 stock ;;
         when (Z.of_nat (length rentedGames) >=? stockTotal stock0)
              (send 400) ;;
         insert_rental customerId gameId date daysRented price ;;
         send 201)%handler
    end.

(** Lines 354-370 of the return handler: [delayFee] for a rental handed
    back on [today].  [None] is [null]; [Some None] is a number that is
    not finite, as a rental of zero days gives. *)
Definition delayFeeOf (r : rental) (today : date) : option (option Q) :=
  let pricePerDay := js_div (originalPrice r) (inject_Z (daysRented r)) in
  let expectedReturnDate := rentDate r + daysRented r in
  let diff := today - expectedReturnDate in
  if diff >? 0
  then Some match pricePerDay with
            | Some perDay => js_mul perDay (inject_Z diff)
            | None => None
            end
  else None.

(** The fee of that block when it is a finite number. *)
Definition computeDelayFee (r : rental) (today : date) : option Q :=
  match delayFeeOf r today with
  | Some fee => fee
  | None => None
  end.

(** [!rental.rows[0].returnDate] *)
Definition not_returned (r : rental) : bool :=
  match returnDate r with
  | None => true
  | Some _ => false
  end.

(** [server.post('/rentals/:id/return', ..)] *)
Definition postRentalsReturn (now : date) (id : idParam)
  : store -> option Z * store :=
  serve
    (try_catch500
       (rentalExists <- select_rentals_by_id id ;;
        when (0 <? length rentalExists)%nat (send 404) ;;
        rental <- select_rentals_by_id id ;;
        r0 <- row0 rental ;;
        when (not_returned r0) (send 400) ;;
        let returnDate := now in
        let delayFee := delayFeeOf r0 returnDate in
        update_rental_return returnDate delayFee id ;;
        send 201)%handler).

(** [server.delete('/rentals/:id', ..)]; nothing is sent after the
    [DELETE] statement. *)
Definition deleteRentals (id : idParam) : store -> option Z * store :=
  serve
    (try_catch500
       (rentalExists <- select_rentals_by_id id ;;
        when (0 <? length rentalExists)%nat (send 404) ;;
        rental <- select_rentals_by_id id ;;
        r0 <- row0 rental ;;
        when (not_returned r0) (send 400) ;;
        delete_rental id)%handler).

(** ** Sequences of lifecycle operations *)

Inductive op : Type :=
| Create (now : date) (body : rentalBody)
| Close (now : date) (id : idParam)
| Delete (id : idParam).

Definition step (o : op) (s : store) : store :=
  match o with
  | Create now body => snd (postRentals now body s)
  | Close now id => snd (postRentalsReturn now id s)
  | Delete id => snd (deleteRentals id s)
  end.

Definition run (ops : list op) (s : store) : store :=
  fold_left (fun acc o => step o acc) ops s.

Inductive reachable (s0 : store) : store -> Prop :=
| reach_start : reachable s0 s0
| reach_step : forall s o, reachable s0 s -> reachable s0 (step o s).

(** ** Vocabulary of the properties *)

(** Rentals of game [g] (all of them, and the open ones). *)
Definition rentals_of (g : Z) (s : store) : list rental :=
  filter (fun r => gameId r =? g) (rentals s).

Definition open_rentals_of (g : Z) (s : store) : list rental :=
  filter (fun r => (gameId r =? g) && not_returned r) (rentals s).

Definition open_count (g : Z) (s : store) : Z :=
  Z.of_nat (length (open_rentals_of g s)).

Definition stock_respected (s : store) : Prop :=
  forall g, In g (games s) -> open_count (g_id g) s <= stockTotal g.

(** The first row of [games] with a given id, as [rows[0]] picks it. *)
Definition game_by_id (n : Z) (s : store) : option game :=
  find (fun g => g_id g =? n) (games s).

Definition customer_known (n : Z) (s : store) : bool :=
  existsb (fun c => c_id c =? n) (customers s).

Definition rental_known (p : idParam) (s : store) : bool :=
  match p with
  | IdInt n => existsb (fun r => r_id r =? n) (rentals s)
  | IdMalformed => false
  end.


(** ** Sample data *)

Definition body_of (c g d : Q) : rentalBody :=
  mkBody (JNum c) (JNum g) (JNum d).

Definition chess : game := mkGame 1 1 (10 # 1).

Definition shop (rs : list rental) (next : Z) : store :=
  mkStore [chess] [mkCustomer 1] rs next 0.

Definition open_row : rental :=
  mkRental 1 1 1 0 3 None (30 # 1) None.

Definition closed_row : rental :=
  mkRental 1 1 1 0 3 (Some 2) (30 # 1) None.


(** A shop whose one game costs 1.1 a day. *)
Definition fraction_shop : store :=
  mkStore [mkGame 1 1 (11 # 10)] [mkCustomer 1] [] 1 0.

(** A shop whose catalogue is empty. *)
Definition bare_shop : store :=
  mkStore [] [mkCustomer 1] [] 1 0.

(** The sample shop after customer 1 rented the chess set for 3 days
    on day 20. *)
Definition shop_after_rent : store :=
  mkStore [chess] [mkCustomer 1]
    [mkRental 1 1 1 20 3 None (30 # 1) None] 2 1.

(** The body fields resolved against the store. *)
Definition game_found (body : rentalBody) (s : store) : bool :=
  match b_gameId body with
  | JNum g =>
    match asInteger g with
    | Some gi => existsb (fun x => g_id x =? gi) (games s)
    | None => false
    end
  | _ => false
  end.

Definition customer_found (body : rentalBody) (s : store) : bool :=
  match b_customerId body with
  | JNum c =>
    match asInteger c with
    | Some ci => customer_known ci s
    | None => false
    end
  | _ => false
  end.

(** ** Listing the rentals *)

(** A row of the answer of [GET /rentals], with the columns that [store]
    keeps.  The driver builds one object for a row of the join, column
    after column under the column's name, [rentals.*] first, then
    [customers.*], then [games.*]: a later column takes the place of an
    earlier one of the same name, so that [id] ends as [games.id]. *)
Record listedRental : Type := mkListed {
  l_id : Z;
  l_customerId : Z;
  l_gameId : Z;
  l_rentDate : date;
  l_daysRented : Z;
  l_returnDate : option date;
  l_originalPrice : Q;
  l_delayFee : option Q;
  l_stockTotal : Z;
  l_pricePerDay : Q
}.

Definition listed (r : rental) (c : customer) (g : game) : listedRental :=
  mkListed (g_id g) (customerId r) (gameId r) (rentDate r) (daysRented r)
    (returnDate r) (originalPrice r) (delayFee r) (stockTotal g)
    (pricePerDay g).

(** [server.get('/rentals', ..)]: the rows of
    [rentals JOIN customers ON customers.id = rentals."customerId"
             JOIN games ON games.id = rentals."gameId"],
    sent with status 200.  The order of the rows is the database's. *)
Definition getRentals (s : store) : Z * list listedRental :=
  (200,
   flat_map
     (fun r =>
        flat_map
          (fun c =>
             map (fun g => listed r c g)
                 (filter (fun g => g_id g =? gameId r) (games s)))
          (filter (fun c => c_id c =? customerId r) (customers s)))
     (rentals s)).

(** What a row of the answer keeps of the rental, and the same columns
    of a rental. *)
Definition listed_columns (row : listedRental)
  : Z * Z * date * Z * option date * Q * option Q :=
  (l_customerId row, l_gameId row, l_rentDate row, l_daysRented row,
   l_returnDate row, l_originalPrice row, l_delayFee row).

Definition rental_columns (r : rental)
  : Z * Z * date * Z * option date * Q * option Q :=
  (customerId r, gameId r, rentDate r, daysRented r,
   returnDate r, originalPrice r, delayFee r).

(** The rental names a customer and a game that exist. *)
Definition resolves (s : store) (r : rental) : bool :=
  customer_known (customerId r) s
  && existsb (fun g => g_id g =? gameId r) (games s).

(** Every rental names a customer and a game that exist. *)
Definition references_resolve (s : store) : Prop :=
  forall r, In r (rentals s) ->
    customer_known (customerId r) s = true /\
    existsb (fun g => g_id g =? gameId r) (games s) = true.

(** ** The catalogue: categories, games, customers *)

(** A body field that a [joi.string()] rule checks: a string, or a value
    that is not one (a number, a boolean, [null], an object). *)
Inductive strField : Type :=
| SUndefined
| SStr (s : string)
| SOther.

Record category : Type := mkCategory {
  cat_id : Z;
  cat_name : string
}.

Record gameRow : Type := mkGameRow {
  gr_id : Z;
  gr_name : string;
  gr_image : string;
  gr_stockTotal : Z;
  gr_categoryId : Z;
  gr_pricePerDay : Q
}.

(** A row of [customers]; [cr_birthday] is the date on file, written
    ['YYYY-MM-DD'] as the body gave it.  How a listing prints it is not
    modelled. *)
Record customerRow : Type := mkCustomerRow {
  cr_id : Z;
  cr_name : string;
  cr_phone : string;
  cr_cpf : string;
  cr_birthday : string
}.

(** The three tables with the serials that number their rows. *)
Record catalogue : Type := mkCatalogue {
  categories : list category;
  categories_seq : Z;
  gameRows : list gameRow;
  games_seq : Z;
  customerRows : list customerRow;
  customers_seq : Z
}.

(** What the sources leave to PostgreSQL and to dayjs: how a text
    parameter bound to an integer column is read ([None]: the query
    raises), whether [customers.cpf] carries a unique constraint, and
    [dayjs(s, 'YYYY-MM-DD', true).isValid()]. *)
Record backend : Type := mkBackend {
  int4in : string -> option Z;
  cpf_is_unique : bool;
  isValidDate : string -> bool
}.

(** The handler monad again, over any state. *)
Definition H (S A : Type) : Type := S -> outcome A * S.

Definition hret {S A : Type} (a : A) : H S A := fun d => (Val a, d).

Definition hbind {S A B : Type} (m : H S A) (k : A -> H S B) : H S B :=
  fun d =>
    match m d with
    | (Val a, d') => k a d'
    | (Sent n, d') => (Sent n, d')
    | (Thrown, d') => (Thrown, d')
    end.

Declare Scope route_scope.
Delimit Scope route_scope with route.
Notation "x <- m ;; k" := (hbind m (fun x => k))
  (at level 100, m at next level, right associativity) : route_scope.
Notation "m ;; k" := (hbind m (fun _ => k))
  (at level 100, right associativity) : route_scope.

Definition hsend {S A : Type} (n : Z) : H S A := fun d => (Sent n, d).

Definition hthrow {S A : Type} : H S A := fun d => (Thrown, d).

Definition hwhen {S : Type} (c : bool) (m : H S unit) : H S unit :=
  if c then m else hret tt.

Definition htry_catch500 {S A : Type} (m : H S A) : H S A :=
  fun d =>
    match m d with
    | (Thrown, d') => (Sent 500, d')
    | r => r
    end.

(** An exception that no [catch] takes leaves the request unanswered. *)
Definition hserve {S : Type} (m : H S unit) (d : S) : option Z * S :=
  match m d with
  | (Sent n, d') => (Some n, d')
  | (_, d') => (None, d')
  end.

(** *** Validation *)

(** [joi.string().required()]: a string, and not the empty one. *)
Definition string_required (v : strField) : option string :=
  match v with
  | SStr s => if String.eqb s EmptyString then None else Some s
  | _ => None
  end.

(** [joi.number().min(m).required()] *)
Definition number_min (m : Q) (v : jsval) : option Q :=
  match v with
  | JNum q => if is_safe q && Qle_bool m q then Some q else None
  | _ => None
  end.

Definition is_digit (c : ascii) : bool :=
  ((48 <=? nat_of_ascii c) && (nat_of_ascii c <=? 57))%nat.

Fixpoint all_digits (s : string) : bool :=
  match s with
  | EmptyString => true
  | String c s' => is_digit c && all_digits s'
  end.

(** [.pattern(/^[0-9]+$/)] *)
Definition digits_only (s : string) : bool :=
  negb (String.eqb s EmptyString) && all_digits s.

(** [categoriesSchema.validate({ name })] *)
Definition categoriesSchema (name : strField) : option string :=
  string_required name.

Record gameBody : Type := mkGameBody {
  gb_name : strField;
  gb_image : strField;
  gb_stockTotal : jsval;
  gb_categoryId : strField;
  gb_pricePerDay : jsval
}.

(** [gamesSchema.validate(..)]; [categoryId] is asked to be a string. *)
Definition gamesSchema (b : gameBody)
  : option (string * string * Q * string * Q) :=
  match string_required (gb_name b),
        string_required (gb_image b),
        number_min 1 (gb_stockTotal b),
        string_required (gb_categoryId b),
        number_min 1 (gb_pricePerDay b) with
  | Some name, Some image, Some stock, Some cat, Some price =>
    Some (name, image, stock, cat, price)
  | _, _, _, _, _ => None
  end.

Record customerBody : Type := mkCustomerBody {
  cb_name : strField;
  cb_phone : strField;
  cb_cpf : strField;
  cb_birthday : strField
}.

(** [joi.string().min(10).max(11).pattern(/^[0-9]+$/).required()] *)
Definition phone_rule (v : strField) : option string :=
  match string_required v with
  | Some s =>
    if ((10 <=? String.length s) && (String.length s <=? 11))%nat
       && digits_only s
    then Some s else None
  | None => None
  end.

(** [joi.string().length(11).pattern(/^[0-9]+$/).required()] *)
Definition cpf_rule (v : strField) : option string :=
  match string_required v with
  | Some s =>
    if (String.length s =? 11)%nat && digits_only s then Some s else None
  | None => None
  end.

(** [customersSchema.validate(..)]: the four keys, then the custom rule
    on the birthday. *)
Definition customersSchema (E : backend) (b : customerBody)
  : option (string * string * string * string) :=
  match string_required (cb_name b),
        phone_rule (cb_phone b),
        cpf_rule (cb_cpf b),
        string_required (cb_birthday b) with
  | Some name, Some phone, Some cpf, Some birthday =>
    if isValidDate E birthday then Some (name, phone, cpf, birthday)
    else None
  | _, _, _, _ => None
  end.

(** *** Statements *)

(** PostgreSQL refuses a text that holds the character of code 0: a
    statement bound to one raises. *)
Fixpoint has_nul (s : string) : bool :=
  match s with
  | EmptyString => false
  | String c s' => Ascii.eqb c Ascii.zero || has_nul s'
  end.

(** [SELECT name FROM categories WHERE name = $1] *)
Definition select_categories_by_name (name : string)
  : H catalogue (list category) :=
  if has_nul name then hthrow
  else
    fun d =>
      (Val (filter (fun c => String.eqb (cat_name c) name) (categories d)),
       d).

(** [SELECT id FROM categories WHERE id = $1], bound to a string *)
Definition select_categories_by_id (E : backend) (id : string)
  : H catalogue (list category) :=
  match int4in E id with
  | Some n =>
    fun d => (Val (filter (fun c => cat_id c =? n) (categories d)), d)
  | None => hthrow
  end.

(** [INSERT INTO categories (name) VALUES ($1)] *)
Definition insert_category (name : string) : H catalogue unit :=
  if has_nul name then hthrow
  else
    fun d =>
      (Val tt,
       mkCatalogue
         (categories d ++ [mkCategory (categories_seq d) name])
         (categories_seq d + 1)
         (gameRows d) (games_seq d) (customerRows d) (customers_seq d)).

(** [INSERT INTO games (name, image, "stockTotal", "categoryId",
    "pricePerDay") VALUES ($1,$2,$3,$4,$5)]; [stockTotal] and
    [categoryId] are integer columns. *)
Definition insert_game (E : backend) (name image : string) (stock : Q)
           (cat : string) (price : Q) : H catalogue unit :=
  if has_nul name || has_nul image then hthrow
  else
    match asInteger stock, int4in E cat with
    | Some st, Some ct =>
      fun d =>
        (Val tt,
         mkCatalogue (categories d) (categories_seq d)
           (gameRows d ++ [mkGameRow (games_seq d) name image st ct price])
           (games_seq d + 1)
           (customerRows d) (customers_seq d))
    | _, _ => hthrow
    end.

(** [SELECT cpf FROM customers WHERE cpf = $1] *)
Definition select_customers_by_cpf (cpf : string)
  : H catalogue (list customerRow) :=
  if has_nul cpf then hthrow
  else
    fun d =>
      (Val (filter (fun c => String.eqb (cr_cpf c) cpf) (customerRows d)),
       d).

(** [SELECT * FROM customers WHERE id = $1] *)
Definition select_customerRows_by_id (id : idParam)
  : H catalogue (list customerRow) :=
  match id with
  | IdInt n =>
    fun d => (Val (filter (fun c => cr_id c =? n) (customerRows d)), d)
  | IdMalformed => hthrow
  end.

(** [INSERT INTO customers ("name","phone","cpf","birthday")
    VALUES ($1,$2,$3,$4)]; it raises when the table has the unique
    constraint and the cpf is taken. *)
Definition insert_customer (E : backend) (name phone cpf birthday : string)
  : H catalogue unit :=
  fun d =>
    if has_nul name || has_nul phone || has_nul cpf || has_nul birthday
    then (Thrown, d)
    else
    if cpf_is_unique E
       && existsb (fun c => String.eqb (cr_cpf c) cpf) (customerRows d)
    then (Thrown, d)
    else
      (Val tt,
       mkCatalogue (categories d) (categories_seq d)
         (gameRows d) (games_seq d)
         (customerRows d ++
            [mkCustomerRow (customers_seq d) name phone cpf birthday])
         (customers_seq d + 1)).

(** [UPDATE customers SET name=$1, phone=$2, cpf=$3, birthday=$4
    WHERE id = $5]; it raises when the table has the unique constraint
    and a row it rewrites would share its cpf with another row.  The
    new version of a row is written after the rows in place, where later
    listings find it. *)
Definition update_customer (E : backend) (name phone cpf birthday : string)
           (id : idParam) : H catalogue unit :=
  match id with
  | IdInt n =>
    fun d =>
      if has_nul name || has_nul phone || has_nul cpf || has_nul birthday
      then (Thrown, d)
      else
      if cpf_is_unique E
         && existsb (fun c => cr_id c =? n) (customerRows d)
         && existsb (fun c => negb (cr_id c =? n)
                              && String.eqb (cr_cpf c) cpf)
                    (customerRows d)
      then (Thrown, d)
      else
        (Val tt,
         mkCatalogue (categories d) (categories_seq d)
           (gameRows d) (games_seq d)
           (filter (fun c => negb (cr_id c =? n)) (customerRows d)
            ++ map (fun c => mkCustomerRow (cr_id c) name phone cpf birthday)
                   (filter (fun c => cr_id c =? n) (customerRows d)))
           (customers_seq d))
  | IdMalformed => hthrow
  end.

(** *** Routes *)

(** [server.get('/categories', ..)] *)
Definition getCategories (d : catalogue) : Z * list category :=
  (200, categories d).

(** [server.post('/categories', ..)] *)
Definition postCategories (name : strField)
  : catalogue -> option Z * catalogue :=
  hserve
    match categoriesSchema name with
    | None => hsend 400
    | Some newName =>
      htry_catch500
        (nameExists <- select_categories_by_name newName ;;
         hwhen (0 <? length nameExists)%nat (hsend 409) ;;
         insert_category newName ;;
         hsend 201)%route
    end.


(** [server.post('/games', ..)] *)
Definition postGames (E : backend) (body : gameBody)
  : catalogue -> option Z * catalogue :=
  hserve
    match gamesSchema body with
    | None => hsend 400
    | Some (name, image, stockTotal, categoryId, pricePerDay) =>
      htry_catch500
        (idExist <- select_categories_by_id E categoryId ;;
         hwhen (length idExist <=? 0)%nat (hsend 400) ;;
         insert_game E name image stockTotal categoryId pricePerDay ;;
         hsend 201)%route
    end.

(** [server.post('/customers', ..)] *)
Definition postCustomers (E : backend) (body : customerBody)
  : catalogue -> option Z * catalogue :=
  hserve
    match customersSchema E body with
    | None => hsend 400
    | Some (name, phone, cpf, birthday) =>
      htry_catch500
        (cpfExists <- select_customers_by_cpf cpf ;;
         hwhen (0 <? length cpfExists)%nat (hsend 409) ;;
         insert_customer E name phone cpf birthday ;;
         hsend 201)%route
    end.

(** [server.put('/customers/:id', ..)]; the first two queries stand
    outside any [try]. *)
Definition putCustomers (E : backend) (id : idParam) (body : customerBody)
  : catalogue -> option Z * catalogue :=
  hserve
    (oldCustumer <- select_customerRows_by_id id ;;
     match customersSchema E body with
     | None => hsend 400
     | Some (name, phone, cpf, birthday) =>
       oldCpf <- select_customers_by_cpf cpf ;;
       (if (length oldCpf <=? 0)%nat
        then
          htry_catch500
            (cpfExists <- select_customers_by_cpf cpf ;;
             hwhen (0 <? length cpfExists)%nat (hsend 409))
        else hret tt) ;;
       htry_catch500
         (update_customer E name phone cpf birthday id ;;
          hsend 201)
     end)%route.

(** *** Sequences of catalogue requests *)

Inductive catalogueOp : Type :=
| PostCategory (name : strField)
| PostGame (body : gameBody)
| PostCustomer (body : customerBody)
| PutCustomer (id : idParam) (body : customerBody).

Definition catalogueStep (E : backend) (o : catalogueOp) (d : catalogue)
  : catalogue :=
  match o with
  | PostCategory name => snd (postCategories name d)
  | PostGame body => snd (postGames E body d)
  | PostCustomer body => snd (postCustomers E body d)
  | PutCustomer id body => snd (putCustomers E id body d)
  end.

Inductive catalogueReachable (E : backend) (d0 : catalogue)
  : catalogue -> Prop :=
| creach_start : catalogueReachable E d0 d0
| creach_step : forall d o,
    catalogueReachable E d0 d ->
    catalogueReachable E d0 (catalogueStep E o d).

(** *** Vocabulary *)

Definition category_named (name : string) (d : catalogue) : bool :=
  existsb (fun c => String.eqb (cat_name c) name) (categories d).

Definition cpf_taken (cpf : string) (d : catalogue) : bool :=
  existsb (fun c => String.eqb (cr_cpf c) cpf) (customerRows d).

Definition wellformed_customer (E : backend) (c : customerRow) : Prop :=
  cr_name c <> EmptyString /\
  (10 <= String.length (cr_phone c) <= 11)%nat /\
  all_digits (cr_phone c) = true /\
  String.length (cr_cpf c) = 11%nat /\
  all_digits (cr_cpf c) = true /\
  isValidDate E (cr_birthday c) = true.

Definition game_floor (g : gameRow) : Prop :=
  1 <= gr_stockTotal g /\ (1 <= gr_pricePerDay g)%Q.

(** The columns of the catalogue that the rental routes read, with a
    ledger beside them. *)
Definition rental_store (d : catalogue) (rs : list rental) (next : Z)
           (w : nat) : store :=
  mkStore
    (map (fun g => mkGame (gr_id g) (gr_stockTotal g) (gr_pricePerDay g))
         (gameRows d))
    (map (fun c => mkCustomer (cr_id c)) (customerRows d))
    rs next w.

(** *** Sample catalogue *)

(** A backend that reads the text ["1"] as 1 and no other text, enforces
    the unique cpf and accepts one birthday. *)
Definition sample_backend : backend :=
  mkBackend
    (fun s => if String.eqb s "1" then Some 1 else None)
    true
    (fun s => String.eqb s "1990-05-17").

Definition empty_catalogue : catalogue :=
  mkCatalogue [] 1 [] 1 [] 1.

Definition strategy_catalogue : catalogue :=
  mkCatalogue [mkCategory 1 "Strategy"] 2 [] 1 [] 1.

Definition chess_body : gameBody :=
  mkGameBody (SStr "Chess") (SStr "http://chess.png") (JNum 2) (SStr "1")
    (JNum (10 # 1)).

Definition ana_body : customerBody :=
  mkCustomerBody (SStr "Ana") (SStr "21998899222") (SStr "01234567890")
    (SStr "1990-05-17").

Definition ana_row : customerRow :=
  mkCustomerRow 1 "Ana" "21998899222" "01234567890" "1990-05-17".

Definition bea_body : customerBody :=
  mkCustomerBody (SStr "Bea") (SStr "2199889922") (SStr "11122233344")
    (SStr "1990-05-17").

Definition ana_catalogue : catalogue :=
  mkCatalogue [] 1 [] 1 [ana_row] 2.

Definition bea_row : customerRow :=
  mkCustomerRow 2 "Bea" "2199889922" "11122233344" "1990-05-17".

(** Two customers on file. *)
Definition pair_catalogue : catalogue :=
  mkCatalogue [] 1 [] 1 [ana_row; bea_row] 3.

Definition ana_moved_body : customerBody :=
  mkCustomerBody (SStr "Ana Lima") (SStr "21998899222") (SStr "01234567890")
    (SStr "1990-05-17").

(** ** Numbers: the integers that doubles hold exactly *)

Lemma Qred_inject_Z (z : Z) : Qred (inject_Z z) = inject_Z z.
Proof. unfold inject_Z. apply Qcanon.Qred_identity, Z.gcd_1_r. Qed.

Lemma Qred_of_integer (x : Q) (z : Z) :
  (x == inject_Z z)%Q -> Qred x = inject_Z z.
Proof.
  intros H. rewrite (Qred_complete _ _ H). apply Qred_inject_Z.
Qed.

Lemma floor_log2_integer (p : positive) :
  floor_log2 p 1 = Z.log2 (Zpos p).
Proof.
  unfold floor_log2. cbv zeta.
  change (Z.log2 (Zpos 1)) with 0. rewrite Z.sub_0_r.
  pose proof (Z.log2_nonneg (Zpos p)) as Hn.
  pose proof (Z.log2_spec (Zpos p) (Pos2Z.is_pos p)) as [Hlo _].
  rewrite (Z.max_r 0 (Z.log2 (Zpos p))) by lia.
  rewrite (Z.max_l 0 (- Z.log2 (Zpos p))) by lia.
  rewrite Z.pow_0_r, Z.mul_1_r, Z.mul_1_l.
  destruct (Z.leb_spec (2 ^ Z.log2 (Zpos p)) (Zpos p)); [reflexivity|lia].
Qed.

Lemma round64_pos_integer (p : positive) :
  Zpos p <= 2 ^ 53 -> round64_pos p 1 = Some (inject_Z (Zpos p)).
Proof.
  intros Hp. unfold round64_pos. rewrite floor_log2_integer.
  pose proof (Z.log2_nonneg (Zpos p)) as Hn.
  pose proof (Z.log2_spec (Zpos p) (Pos2Z.is_pos p)) as [Hlo Hhi].
  assert (Hk : Z.log2 (Zpos p) <= 53).
  { rewrite <- (Z.log2_pow2 53) by lia. now apply Z.log2_le_mono. }
  set (k := Z.log2 (Zpos p)) in *.
  rewrite (Z.max_l (k - 52) (-1074)) by lia.
  destruct (Z_le_gt_dec k 52) as [Hle|Hgt].
  - (* the last bit weighs [2 ^ (k - 52) <= 1] *)
    rewrite (Z.max_r 0 (- (k - 52))) by lia.
    rewrite (Z.max_l 0 (k - 52)) by lia.
    rewrite Z.pow_0_r, !Z.mul_1_r.
    assert (Hc : 0 < 2 ^ (- (k - 52))) by (apply Z.pow_pos_nonneg; lia).
    replace (round_half_even (Zpos p * 2 ^ (- (k - 52))) 1)
      with (Zpos p * 2 ^ (- (k - 52))).
    2:{ unfold round_half_even. rewrite Z.mod_1_r, Z.div_1_r. reflexivity. }
    assert (Hb : Zpos p * 2 ^ (- (k - 52)) < 2 ^ 1024 * 2 ^ (- (k - 52))).
    { apply Z.mul_lt_mono_pos_r; [exact Hc|].
      apply Z.le_lt_trans with (2 ^ 53); [exact Hp|].
      apply Z.pow_lt_mono_r; lia. }
    destruct (Z.leb_spec (2 ^ 1024 * 2 ^ (- (k - 52)))
                         (Zpos p * 2 ^ (- (k - 52)))); [lia|].
    f_equal. apply Qred_of_integer.
    unfold Qeq, inject_Z. cbn [Qnum Qden].
    rewrite Z2Pos.id by exact Hc. lia.
  - (* [p = 2 ^ 53] *)
    assert (k = 53) as Ek by lia. rewrite Ek in *.
    assert (Zpos p = 2 ^ 53) as Ep by lia.
    rewrite Ep. vm_compute. reflexivity.
Qed.

Lemma round64_integer (x : Q) (z : Z) :
  (x == inject_Z z)%Q -> Z.abs z <= 2 ^ 53 ->
  round64 x = Some (inject_Z z).
Proof.
  intros Hx Hz. unfold round64. rewrite (Qred_of_integer x z Hx).
  cbn [Qnum Qden inject_Z]. destruct z as [|p|p].
  - reflexivity.
  - apply round64_pos_integer. lia.
  - rewrite round64_pos_integer by lia. reflexivity.
Qed.

Lemma number_text_integer (z : Z) :
  Z.abs z <= 2 ^ 53 -> number_text (inject_Z z) = inject_Z z.
Proof.
  intros Hz. unfold number_text, is_safe_integer.
  rewrite Qred_inject_Z. cbn [Qnum Qden inject_Z Pos.eqb andb].
  destruct (Z.leb_spec (Z.abs z) (max_safe_integer + 1)) as [_|H];
    [reflexivity|].
  exfalso. change (max_safe_integer + 1) with (2 ^ 53) in H. lia.
Qed.

Lemma js_mul_integers (x y : Q) (a b : Z) :
  (x == inject_Z a)%Q -> (y == inject_Z b)%Q ->
  Z.abs a <= 2 ^ 53 -> Z.abs b <= 2 ^ 53 -> Z.abs (a * b) <= 2 ^ 53 ->
  js_mul x y = Some (inject_Z (a * b)).
Proof.
  intros Hx Hy Ha Hb Hab. unfold js_mul.
  rewrite (round64_integer x a Hx Ha), (round64_integer y b Hy Hb).
  rewrite (round64_integer (inject_Z a * inject_Z b) (a * b)).
  - cbn [option_map]. now rewrite number_text_integer.
  - now rewrite inject_Z_mult.
  - exact Hab.
Qed.

Lemma js_div_integers (x y : Q) (a b : Z) :
  (x == inject_Z (a * b))%Q -> (y == inject_Z b)%Q -> b <> 0 ->
  Z.abs (a * b) <= 2 ^ 53 -> Z.abs b <= 2 ^ 53 ->
  js_div x y = Some (inject_Z a).
Proof.
  intros Hx Hy Hb0 Hab Hb.
  assert (Ha : Z.abs a <= 2 ^ 53).
  { rewrite Z.abs_mul in Hab. nia. }
  unfold js_div.
  rewrite (round64_integer x (a * b) Hx Hab), (round64_integer y b Hy Hb).
  destruct (Qeq_bool (inject_Z b) 0) eqn:E.
  { apply Qeq_bool_eq in E. unfold Qeq, inject_Z in E. cbn in E. lia. }
  rewrite (round64_integer (inject_Z (a * b) / inject_Z b) a).
  - cbn [option_map]. now rewrite number_text_integer.
  - rewrite inject_Z_mult. field.
    intros H0. unfold Qeq, inject_Z in H0. cbn in H0. lia.
  - exact Ha.
Qed.

(** ** What the handlers compute *)

Ltac run_handler :=
  cbv beta iota zeta delta
    [serve try_catch500 bind when send throw ret row0
     select_games_by_id select_customers_by_id select_rentals_by_gameId
     select_rentals_by_id insert_rental update_rental_return
     delete_rental intParam idValue numericParam].

(** The create handler, with the monad unfolded. *)
Lemma postRentals_eq (now : date) (body : rentalBody) (s : store) :
  postRentals now body s =
  match rentalsReqSchema body with
  | None => (Some 400, s)
  | Some (c, g, d) =>
    match asInteger g with
    | None => (Some 500, s)
    | Some gi =>
      match filter (fun x => g_id x =? gi) (games s) with
      | [] => (Some 500, s)
      | g0 :: _ =>
        match asInteger c with
        | None => (Some 500, s)
        | Some ci =>
          if (length (filter (fun x => (c_id x =? ci)%Z) (customers s)) <=? 0)%nat
          then (Some 400, s)
          else if Qle_bool d 0 then (Some 400, s)
          else if Z.of_nat (length (rentals_of gi s)) >=? stockTotal g0
          then (Some 400, s)
          else
            match asInteger d with
            | None => (Some 500, s)
            | Some di =>
              match js_mul (pricePerDay g0) d with
              | None => (Some 500, s)
              | Some pr =>
                (Some 201,
                 mkStore (games s) (customers s)
                   (rentals s ++
                      [mkRental (rentals_seq s) ci gi now di None pr None])
                   (rentals_seq s + 1)
                   (S (writes s)))
              end
            end
        end
      end
    end
  end.
Proof.
  unfold postRentals, rentals_of.
  destruct (rentalsReqSchema body) as [[[c g] d]|]; [|reflexivity].
  run_handler.
  destruct (asInteger g) as [gi|]; [|reflexivity].
  run_handler.
  destruct (filter (fun x => g_id x =? gi) (games s)) as [|g0 gs] eqn:Eg;
    [reflexivity|].
  destruct (asInteger c) as [ci|]; [|reflexivity].
  run_handler.
  destruct (length (filter (fun x => (c_id x =? ci)%Z) (customers s)) <=? 0)%nat;
    [reflexivity|].
  repeat (progress (run_handler; rewrite ?Eg; cbn [length Nat.leb])).
  destruct (Qle_bool d 0); [reflexivity|].
  repeat (progress (run_handler; rewrite ?Eg; cbn [length Nat.leb])).
  destruct (Z.of_nat (length (filter (fun r => gameId r =? gi) (rentals s)))
              >=? stockTotal g0); [reflexivity|].
  run_handler.
  destruct (asInteger d) as [di|]; [|reflexivity].
  destruct (js_mul (pricePerDay g0) d) as [pr|]; reflexivity.
Qed.

Lemma existsb_filter_length {A : Type} (f : A -> bool) (l : list A) :
  existsb f l = (0 <? length (filter f l))%nat.
Proof.
  induction l as [|a l IH]; [reflexivity|].
  cbn [existsb filter]. destruct (f a); [reflexivity|exact IH].
Qed.

(** The return handler answers 404 or 500 and leaves the store alone. *)
Lemma postRentalsReturn_eq (now : date) (id : idParam) (s : store) :
  postRentalsReturn now id s =
  (Some (if rental_known id s then 404 else 500), s).
Proof.
  unfold postRentalsReturn, rental_known.
  run_handler.
  destruct id as [n|]; [|reflexivity].
  rewrite existsb_filter_length.
  destruct (filter (fun r => r_id r =? n) (rentals s)) as [|r rs] eqn:E.
  - run_handler. cbn [length Nat.ltb Nat.leb]. run_handler.
    rewrite E. reflexivity.
  - reflexivity.
Qed.

(** So does the delete handler. *)
Lemma deleteRentals_eq (id : idParam) (s : store) :
  deleteRentals id s =
  (Some (if rental_known id s then 404 else 500), s).
Proof.
  unfold deleteRentals, rental_known.
  run_handler.
  destruct id as [n|]; [|reflexivity].
  rewrite existsb_filter_length.
  destruct (filter (fun r => r_id r =? n) (rentals s)) as [|r rs] eqn:E.
  - run_handler. cbn [length Nat.ltb Nat.leb]. run_handler.
    rewrite E. reflexivity.
  - reflexivity.
Qed.

(** ** Auxiliary facts *)

Lemma find_filter {A : Type} (f : A -> bool) (l : list A) :
  find f l = hd_error (filter f l).
Proof.
  induction l as [|a l IH]; [reflexivity|].
  cbn [find filter]. destruct (f a); [reflexivity|exact IH].
Qed.

Lemma asInteger_sound (q : Q) (n : Z) :
  asInteger q = Some n -> (q == inject_Z n)%Q.
Proof.
  unfold asInteger. intros H.
  destruct (Pos.eqb_spec (Qden (Qred q)) 1) as [Hd|]; [|discriminate].
  cbn [andb] in H.
  destruct ((int4_min <=? Qnum (Qred q)) && (Qnum (Qred q) <=? int4_max));
    [|discriminate].
  injection H as <-.
  rewrite <- (Qred_correct q) at 1.
  destruct (Qred q) as [a b]. cbn in Hd |- *. subst b. reflexivity.
Qed.

Lemma asInteger_in_int4 (q : Q) (n : Z) :
  asInteger q = Some n -> in_int4 n.
Proof.
  unfold asInteger, in_int4. intros H.
  destruct (Pos.eqb (Qden (Qred q)) 1); [|discriminate].
  cbn [andb] in H.
  destruct (Z.leb_spec int4_min (Qnum (Qred q))); [|discriminate].
  destruct (Z.leb_spec (Qnum (Qred q)) int4_max); [|discriminate].
  injection H as <-. lia.
Qed.

Lemma asInteger_inject_Z (n : Z) :
  in_int4 n -> asInteger (inject_Z n) = Some n.
Proof.
  intros [Hlo Hhi]. unfold asInteger. rewrite Qred_inject_Z.
  cbn [Qnum Qden inject_Z Pos.eqb andb].
  apply Z.leb_le in Hlo, Hhi. now rewrite Hlo, Hhi.
Qed.

Lemma int4_is_safe (q : Q) (n : Z) :
  asInteger q = Some n -> is_safe q = true.
Proof.
  intros H. pose proof (asInteger_in_int4 q n H) as [Hlo Hhi].
  apply asInteger_sound in H. unfold is_safe.
  apply andb_true_intro. split; apply Qle_bool_iff; rewrite H;
    unfold Qle, inject_Z, int4_min, int4_max, max_safe_integer in *;
    cbn [Qnum Qden]; lia.
Qed.

Lemma int4_below_2_53 (n : Z) : in_int4 n -> Z.abs n <= 2 ^ 53.
Proof.
  unfold in_int4, int4_min, int4_max. intros H.
  change (2 ^ 53) with 9007199254740992. lia.
Qed.

Lemma Qle_bool_false_pos (d : Q) (n : Z) :
  Qle_bool d 0 = false -> (d == inject_Z n)%Q -> 0 < n.
Proof.
  intros Hb Hd.
  destruct (Z_lt_le_dec 0 n) as [Hn|Hn]; [exact Hn|].
  exfalso. assert (Hle : (d <= 0)%Q).
  { rewrite Hd. unfold Qle, inject_Z. cbn. lia. }
  apply Qle_bool_iff in Hle. congruence.
Qed.

Lemma key_unique {A : Type} (key : A -> Z) (l : list A) (a b : A) :
  NoDup (map key l) -> In a l -> In b l -> key a = key b -> a = b.
Proof.
  induction l as [|x l IH]; cbn [map In]; [contradiction|].
  intros Hnd Ha Hb Hk. inversion Hnd as [|? ? Hnotin Hnd']; subst.
  destruct Ha as [->|Ha], Hb as [->|Hb].
  - reflexivity.
  - exfalso. apply Hnotin. rewrite Hk. now apply in_map.
  - exfalso. apply Hnotin. rewrite <- Hk. now apply in_map.
  - now apply IH.
Qed.

Lemma open_le_all (g : Z) (s : store) :
  (length (open_rentals_of g s) <= length (rentals_of g s))%nat.
Proof.
  unfold open_rentals_of, rentals_of.
  induction (rentals s) as [|r rs IH]; [apply le_n|].
  cbn [filter]. destruct (gameId r =? g); cbn [andb].
  - destruct (not_returned r); cbn [length]; lia.
  - exact IH.
Qed.

(** Either the create handler leaves the store as it found it, or it
    passed every guard and appended one row. *)
Lemma postRentals_cases (now : date) (body : rentalBody) (s : store) :
  (snd (postRentals now body s) = s /\
   fst (postRentals now body s) <> Some 201)
  \/
  exists c g d gi ci di g0 gs pr,
    rentalsReqSchema body = Some (c, g, d) /\
    asInteger g = Some gi /\
    filter (fun x => g_id x =? gi) (games s) = g0 :: gs /\
    asInteger c = Some ci /\
    customer_known ci s = true /\
    Qle_bool d 0 = false /\
    Z.of_nat (length (rentals_of gi s)) < stockTotal g0 /\
    asInteger d = Some di /\
    js_mul (pricePerDay g0) d = Some pr /\
    postRentals now body s =
    (Some 201,
     mkStore (games s) (customers s)
       (rentals s ++
          [mkRental (rentals_seq s) ci gi now di None pr None])
       (rentals_seq s + 1)
       (S (writes s))).
Proof.
  rewrite postRentals_eq.
  destruct (rentalsReqSchema body) as [[[c g] d]|];
    [|left; split; [reflexivity|discriminate]].
  destruct (asInteger g) as [gi|] eqn:Eg;
    [|left; split; [reflexivity|discriminate]].
  destruct (filter (fun x => g_id x =? gi) (games s)) as [|g0 gs] eqn:Ef;
    [left; split; [reflexivity|discriminate]|].
  destruct (asInteger c) as [ci|] eqn:Eci;
    [|left; split; [reflexivity|discriminate]].
  destruct (length (filter (fun x => (c_id x =? ci)%Z) (customers s)) <=? 0)%nat
    eqn:Ec; [left; split; [reflexivity|discriminate]|].
  destruct (Qle_bool d 0) eqn:Ed;
    [left; split; [reflexivity|discriminate]|].
  destruct (Z.of_nat (length (rentals_of gi s)) >=? stockTotal g0) eqn:Ek;
    [left; split; [reflexivity|discriminate]|].
  destruct (asInteger d) as [di|] eqn:Edi;
    [|left; split; [reflexivity|discriminate]].
  destruct (js_mul (pricePerDay g0) d) as [pr|] eqn:Epr;
    [|left; split; [reflexivity|discriminate]].
  right. exists c, g, d, gi, ci, di, g0, gs, pr.
  repeat split; try reflexivity; try assumption.
  - unfold customer_known. rewrite existsb_filter_length.
    apply Nat.leb_gt in Ec. now apply Nat.ltb_lt.
  - rewrite Z.geb_leb in Ek. apply Z.leb_gt in Ek. exact Ek.
Qed.

Lemma step_games (o : op) (s : store) : games (step o s) = games s.
Proof.
  destruct o as [now body|now id|id]; cbn [step].
  - destruct (postRentals_cases now body s)
      as [[-> _]|(c & g & d & gi & ci & di & g0 & gs & pr & H)];
      [reflexivity|].
    destruct H as (_ & _ & _ & _ & _ & _ & _ & _ & _ & ->). reflexivity.
  - now rewrite postRentalsReturn_eq.
  - now rewrite deleteRentals_eq.
Qed.

(** No operation touches a row that is already there. *)
Lemma step_rentals_grow (o : op) (s : store) :
  exists l, rentals (step o s) = rentals s ++ l.
Proof.
  destruct o as [now body|now id|id]; cbn [step].
  - destruct (postRentals_cases now body s)
      as [[-> _]|(c & g & d & gi & ci & di & g0 & gs & pr & H)].
    + exists []. now rewrite app_nil_r.
    + destruct H as (_ & _ & _ & _ & _ & _ & _ & _ & _ & ->).
      cbn [snd rentals]. eauto.
  - rewrite postRentalsReturn_eq. exists []. now rewrite app_nil_r.
  - rewrite deleteRentals_eq. exists []. now rewrite app_nil_r.
Qed.

Lemma run_rentals_grow (ops : list op) (s : store) :
  exists l, rentals (run ops s) = rentals s ++ l.
Proof.
  revert s. induction ops as [|o ops IH]; intros s; cbn [run fold_left].
  - exists []. now rewrite app_nil_r.
  - destruct (IH (step o s)) as [l1 H1].
    destruct (step_rentals_grow o s) as [l0 H0].
    exists (l0 ++ l1). unfold run in H1. rewrite H1, H0.
    now rewrite app_assoc.
Qed.

Lemma stock_respected_step (o : op) (s : store) :
  NoDup (map g_id (games s)) ->
  stock_respected s -> stock_respected (step o s).
Proof.
  intros Hnd Hinv.
  destruct o as [now body|now id|id]; cbn [step].
  - destruct (postRentals_cases now body s)
      as [[-> _]|(c & g & d & gi & ci & di & g0 & gs & pr & H)];
      [exact Hinv|].
    destruct H as (_ & _ & Hf & _ & _ & _ & Hlt & _ & _ & ->).
    cbn [snd]. intros x Hx. cbn [games] in Hx.
    unfold open_count, open_rentals_of. cbn [rentals].
    rewrite filter_app, length_app. cbn [filter gameId not_returned returnDate].
    assert (Hg0 : In g0 (games s) /\ g_id g0 = gi).
    { assert (Hin : In g0 (filter (fun y => g_id y =? gi) (games s)))
        by (rewrite Hf; now left).
      apply filter_In in Hin. destruct Hin as [Hin Heq].
      split; [exact Hin|]. now apply Z.eqb_eq. }
    destruct Hg0 as [Hin0 Hid0].
    destruct (Z.eqb_spec gi (g_id x)) as [Heq|Hne].
    + assert (x = g0) as ->.
      { apply (key_unique g_id (games s)); auto. congruence. }
      cbn [andb length]. rewrite Hid0.
      pose proof (open_le_all gi s) as Hle.
      unfold open_rentals_of in Hle. lia.
    + cbn [andb length]. specialize (Hinv x Hx).
      unfold open_count, open_rentals_of in Hinv. lia.
  - now rewrite postRentalsReturn_eq.
  - now rewrite deleteRentals_eq.
Qed.

Lemma stock_respected_reachable (s0 s : store) :
  NoDup (map g_id (games s0)) ->
  stock_respected s0 ->
  reachable s0 s ->
  games s = games s0 /\ stock_respected s.
Proof.
  intros Hnd H0 Hr. induction Hr as [|s o Hr [IHg IHs]].
  - split; [reflexivity|exact H0].
  - split.
    + now rewrite step_games.
    + apply stock_respected_step; [now rewrite IHg|exact IHs].
Qed.

Lemma computeDelayFee_on_time (r : rental) (today : date) :
  today <= rentDate r + daysRented r -> computeDelayFee r today = None.
Proof.
  intros H. unfold computeDelayFee, delayFeeOf.
  destruct (Z.gtb_spec (today - (rentDate r + daysRented r)) 0);
    [lia|reflexivity].
Qed.

Lemma computeDelayFee_late (r : rental) (today : date) :
  rentDate r + daysRented r < today ->
  computeDelayFee r today =
  match js_div (originalPrice r) (inject_Z (daysRented r)) with
  | Some perDay =>
    js_mul perDay (inject_Z (today - (rentDate r + daysRented r)))
  | None => None
  end.
Proof.
  intros H. unfold computeDelayFee, delayFeeOf.
  destruct (Z.gtb_spec (today - (rentDate r + daysRented r)) 0);
    [reflexivity|lia].
Qed.

Lemma is_safe_bounds (q : Q) :
  is_safe q = true ->
  (inject_Z (- max_safe_integer) <= q)%Q /\ (q <= inject_Z max_safe_integer)%Q.
Proof.
  unfold is_safe. intros H. apply andb_prop in H. destruct H as [H1 H2].
  split; now apply Qle_bool_iff.
Qed.

Lemma number_required_inv (v : jsval) (q : Q) :
  number_required v = Some q -> v = JNum q /\ is_safe q = true.
Proof.
  unfold number_required. destruct v as [|q0|]; try discriminate.
  destruct (is_safe q0) eqn:E; [|discriminate].
  intros H. injection H as <-. auto.
Qed.

Lemma rentalsReqSchema_inv (body : rentalBody) (c g d : Q) :
  rentalsReqSchema body = Some (c, g, d) ->
  b_customerId body = JNum c /\ b_gameId body = JNum g /\
  b_daysRented body = JNum d.
Proof.
  unfold rentalsReqSchema.
  destruct (number_required (b_customerId body)) as [c'|] eqn:Ec;
    [|discriminate].
  destruct (number_required (b_gameId body)) as [g'|] eqn:Eg;
    [|discriminate].
  destruct (number_required (b_daysRented body)) as [d'|] eqn:Ed;
    [|discriminate].
  intros H. injection H as <- <- <-.
  apply number_required_inv in Ec, Eg, Ed. tauto.
Qed.

Lemma rentalsReqSchema_intro (body : rentalBody) (c g d : Q) :
  b_customerId body = JNum c -> b_gameId body = JNum g ->
  b_daysRented body = JNum d ->
  is_safe c = true -> is_safe g = true -> is_safe d = true ->
  rentalsReqSchema body = Some (c, g, d).
Proof.
  intros Hc Hg Hd Sc Sg Sd. unfold rentalsReqSchema, number_required.
  now rewrite Hc, Hg, Hd, Sc, Sg, Sd.
Qed.

(** When the game has fewer rentals of any kind than units in stock, a
    well-formed request is served: 201 and one appended row. *)
Lemma postRentals_succeeds (now : date) (body : rentalBody) (s : store)
      (c g d : Q) (ci gi di : Z) (g0 : game) (pr : Q) :
  rentalsReqSchema body = Some (c, g, d) ->
  asInteger c = Some ci -> asInteger g = Some gi -> asInteger d = Some di ->
  game_by_id gi s = Some g0 ->
  customer_known ci s = true ->
  (0 < d)%Q ->
  js_mul (pricePerDay g0) d = Some pr ->
  Z.of_nat (length (rentals_of gi s)) < stockTotal g0 ->
  postRentals now body s =
  (Some 201,
   mkStore (games s) (customers s)
     (rentals s ++
        [mkRental (rentals_seq s) ci gi now di None pr None])
     (rentals_seq s + 1)
     (S (writes s))).
Proof.
  intros Hv Hc Hg Hd Hgame Hcust Hpos Hpr Hstock.
  rewrite postRentals_eq, Hv, Hg.
  unfold game_by_id in Hgame. rewrite find_filter in Hgame.
  destruct (filter (fun x => g_id x =? gi) (games s)) as [|g1 gs];
    [discriminate|].
  injection Hgame as ->.
  rewrite Hc.
  unfold customer_known in Hcust. rewrite existsb_filter_length in Hcust.
  apply Nat.ltb_lt in Hcust.
  destruct (Nat.leb_spec
              (length (filter (fun x => c_id x =? ci) (customers s))) 0);
    [lia|].
  destruct (Qle_bool d 0) eqn:Ed.
  { apply Qle_bool_iff in Ed. exfalso. exact (Qlt_not_le _ _ Hpos Ed). }
  rewrite Z.geb_leb.
  destruct (Z.leb_spec (stockTotal g0) (Z.of_nat (length (rentals_of gi s))));
    [lia|].
  now rewrite Hd, Hpr.
Qed.

(** ** Creating a rental *)

(** C1 (the code departs from the claim): the availability check of
    [POST /rentals] counts every rental of the game, returned ones
    included.  With one unit in stock and a single rental that has
    already been returned, no rental is open, the game and the customer
    exist and 3 days are asked for, yet the request is refused with 400
    and nothing is inserted. *)
Theorem create_counts_returned_rentals :
  game_by_id 1 (shop [closed_row] 2) = Some chess /\
  customer_known 1 (shop [closed_row] 2) = true /\
  stockTotal chess = 1 /\
  open_count 1 (shop [closed_row] 2) = 0 /\
  postRentals 20 (body_of 1 1 3) (shop [closed_row] 2)
  = (Some 400, shop [closed_row] 2).
Proof. vm_compute. repeat split. Qed.

(** C6, as stated, fails: the price is a product of doubles.  At 1.1 a
    day, 3 days are priced 3.3000000000000003, which is not 1.1 times
    3. *)
Lemma originalPrice_rounded_for_fractional_price :
  game_by_id 1 fraction_shop = Some (mkGame 1 1 (11 # 10)) /\
  fst (postRentals 20 (body_of 1 1 3) fraction_shop) = Some 201 /\
  map originalPrice
      (rentals (snd (postRentals 20 (body_of 1 1 3) fraction_shop)))
  = [33000000000000003 # 10000000000000000] /\
  ~ (33000000000000003 # 10000000000000000 == (11 # 10) * 3)%Q.
Proof.
  split; [reflexivity|]. split; [vm_compute; reflexivity|].
  split; [vm_compute; reflexivity|].
  intros H. unfold Qeq in H. cbn in H. discriminate H.
Qed.

(** C6, amended: when [POST /rentals] answers 201, the one row it
    appended holds as [originalPrice] the product, as JavaScript computes
    it on doubles, of the [pricePerDay] of the game the request names and
    of [daysRented]; that is the exact product whenever the price per day
    is an integer and the product is at most 2^53 in magnitude.  Whatever
    create, return and delete requests follow, the row stays at its place
    unchanged, so its [originalPrice] never changes. *)
Theorem originalPrice_fixed_at_creation :
  forall (now : date) (body : rentalBody) (s s' : store),
    postRentals now body s = (Some 201, s') ->
    exists (d : Q) (gi : Z) (g0 : game) (r : rental),
      b_daysRented body = JNum d /\
      game_by_id gi s = Some g0 /\
      rentals s' = rentals s ++ [r] /\
      gameId r = gi /\
      (inject_Z (daysRented r) == d)%Q /\
      js_mul (pricePerDay g0) d = Some (originalPrice r) /\
      (forall p : Z,
          (pricePerDay g0 == inject_Z p)%Q ->
          Z.abs (p * daysRented r) <= 2 ^ 53 ->
          originalPrice r = inject_Z (p * daysRented r)) /\
      forall ops : list op,
        exists later, rentals (run ops s') = rentals s ++ r :: later.
Proof.
  intros now body s s' H.
  destruct (postRentals_cases now body s)
    as [[_ Hn]|(c & g & d & gi & ci & di & g0 & gs & pr & Hc)].
  { exfalso. apply Hn. now rewrite H. }
  destruct Hc as (Hv & Hg & Hf & _ & _ & Hpos & _ & Hd & Hpr & Heq).
  rewrite Heq in H. injection H as <-.
  apply rentalsReqSchema_inv in Hv. destruct Hv as (_ & _ & Hbd).
  pose proof (asInteger_in_int4 d di Hd) as Hrange.
  apply asInteger_sound in Hd.
  exists d, gi, g0, (mkRental (rentals_seq s) ci gi now di None pr None).
  cbn [rentals gameId daysRented originalPrice].
  split; [exact Hbd|].
  split; [unfold game_by_id; now rewrite find_filter, Hf|].
  split; [reflexivity|]. split; [reflexivity|].
  split; [now symmetry|]. split; [exact Hpr|]. split.
  - intros p Hp Hbound.
    pose proof (Qle_bool_false_pos d di Hpos Hd) as Hdi.
    assert (Ha : Z.abs p <= 2 ^ 53).
    { rewrite Z.abs_mul in Hbound. nia. }
    pose proof (js_mul_integers (pricePerDay g0) d p di Hp Hd Ha
                  (int4_below_2_53 di Hrange) Hbound) as Hm.
    congruence.
  - intros ops.
    destruct (run_rentals_grow ops
                (mkStore (games s) (customers s)
                   (rentals s ++
                      [mkRental (rentals_seq s) ci gi now di None pr None])
                   (rentals_seq s + 1) (S (writes s)))) as [l Hl].
    exists l. rewrite Hl. cbn [rentals]. now rewrite <- app_assoc.
Qed.

Lemma originalPrice_fixed_at_creation_witness :
  postRentals 20 (body_of 1 1 3) (shop [] 1) = (Some 201, shop_after_rent) /\
  exists (d : Q) (gi : Z) (g0 : game) (r : rental),
    b_daysRented (body_of 1 1 3) = JNum d /\
    game_by_id gi (shop [] 1) = Some g0 /\
    rentals shop_after_rent = rentals (shop [] 1) ++ [r] /\
    gameId r = gi /\
    (inject_Z (daysRented r) == d)%Q /\
    js_mul (pricePerDay g0) d = Some (originalPrice r) /\
    (forall p : Z,
        (pricePerDay g0 == inject_Z p)%Q ->
        Z.abs (p * daysRented r) <= 2 ^ 53 ->
        originalPrice r = inject_Z (p * daysRented r)) /\
    forall ops : list op,
      exists later,
        rentals (run ops shop_after_rent)
        = rentals (shop [] 1) ++ r :: later.
Proof.
  split.
  - vm_compute. reflexivity.
  - apply (originalPrice_fixed_at_creation 20 (body_of 1 1 3) (shop [] 1)
             shop_after_rent).
    vm_compute. reflexivity.
Defined.

(** The example of the specification: 10 a day for 3 days is 30. *)
Example originalPrice_10_times_3 :
  map originalPrice
      (rentals (snd (postRentals 20 (body_of 1 1 3) (shop [] 1))))
  = [30 # 1].
Proof. vm_compute. reflexivity. Qed.

(** C7 (the code departs from the claim): [POST /rentals] reads
    [gamePrice.rows[0].pricePerDay] before it checks that the game exists.
    For a game id that no row of [games] carries the read raises, the
    [catch] answers 500 and the guard that would answer 400 is never
    reached; nothing is inserted. *)
Theorem create_unknown_game_answers_500 :
  game_found (body_of 1 1 3) bare_shop = false /\
  customer_found (body_of 1 1 3) bare_shop = true /\
  postRentals 20 (body_of 1 1 3) bare_shop = (Some 500, bare_shop).
Proof. vm_compute. repeat split. Qed.




(** C9: start from a ledger without rentals whose games carry distinct
    ids and a stock that is not negative; after any sequence of create,
    return and delete requests, served one after the other, no game has
    more open rentals than units in stock. *)
Theorem open_rentals_never_exceed_stock :
  forall s0 s : store,
    NoDup (map g_id (games s0)) ->
    (forall g, In g (games s0) -> 0 <= stockTotal g) ->
    rentals s0 = [] ->
    reachable s0 s ->
    forall g, In g (games s) -> open_count (g_id g) s <= stockTotal g.
Proof.
  intros s0 s Hnd Hstock Hempty Hr.
  assert (H0 : stock_respected s0).
  { intros g Hg. unfold open_count, open_rentals_of. rewrite Hempty.
    cbn [filter length]. now apply Hstock. }
  exact (proj2 (stock_respected_reachable s0 s Hnd H0 Hr)).
Qed.

Lemma open_rentals_never_exceed_stock_witness :
  NoDup (map g_id (games (shop [] 1))) /\
  (forall g, In g (games (shop [] 1)) -> 0 <= stockTotal g) /\
  rentals (shop [] 1) = [] /\
  reachable (shop [] 1)
    (step (Create 21 (body_of 1 1 2))
       (step (Create 20 (body_of 1 1 3)) (shop [] 1))) /\
  forall g,
    In g (games (step (Create 21 (body_of 1 1 2))
                   (step (Create 20 (body_of 1 1 3)) (shop [] 1)))) ->
    open_count (g_id g)
      (step (Create 21 (body_of 1 1 2))
         (step (Create 20 (body_of 1 1 3)) (shop [] 1)))
    <= stockTotal g.
Proof.
  assert (Hnd : NoDup (map g_id (games (shop [] 1)))).
  { cbn. constructor; [intros []|constructor]. }
  assert (Hst : forall g, In g (games (shop [] 1)) -> 0 <= stockTotal g).
  { cbn. intros g [<-|[]]. cbn. lia. }
  assert (Hr : reachable (shop [] 1)
                 (step (Create 21 (body_of 1 1 2))
                    (step (Create 20 (body_of 1 1 3)) (shop [] 1)))).
  { apply reach_step, reach_step, reach_start. }
  repeat split; try assumption.
  exact (open_rentals_never_exceed_stock (shop [] 1) _ Hnd Hst eq_refl Hr).
Defined.

(** ** Returning a rental *)

(** C10: for every id and every store, [POST /rentals/:id/return] leaves
    the table [rentals] as it was and executes no writing statement; it
    answers 404 when a rental with that id exists and 500 when none
    does. *)
Theorem return_never_writes :
  forall (now : date) (id : idParam) (s : store),
    rentals (snd (postRentalsReturn now id s)) = rentals s /\
    writes (snd (postRentalsReturn now id s)) = writes s /\
    fst (postRentalsReturn now id s)
    = Some (if rental_known id s then 404 else 500).
Proof.
  intros now id s. rewrite postRentalsReturn_eq. repeat split.
Qed.

(** C2 (the code departs from the claim): returning a rental that is
    already closed is answered 404, not 400; the row is left as it was. *)
Theorem return_closed_rental_answers_404 :
  returnDate closed_row = Some 2 /\
  rental_known (IdInt 1) (shop [closed_row] 2) = true /\
  postRentalsReturn 5 (IdInt 1) (shop [closed_row] 2)
  = (Some 404, shop [closed_row] 2).
Proof. vm_compute. repeat split. Qed.

(** C3 (the code departs from the claim): returning a rental that does
    not exist is answered 500, not 404; nothing is written. *)
Theorem return_missing_rental_answers_500 :
  rental_known (IdInt 9) (shop [closed_row] 2) = false /\
  postRentalsReturn 5 (IdInt 9) (shop [closed_row] 2)
  = (Some 500, shop [closed_row] 2).
Proof. vm_compute. repeat split. Qed.

(** C5 (the code departs from the claim): an open rental of 3 days made
    on day 0 at 30 comes back on day 5, two days late.  Lines 354-370
    would compute a fee of 20, but the handler answers 404 before it
    reaches them: the row keeps [returnDate] and [delayFee] null. *)
Theorem late_return_records_no_fee :
  returnDate open_row = None /\
  rentDate open_row + daysRented open_row + 2 = 5 /\
  (exists fee, computeDelayFee open_row 5 = Some fee /\ (fee == 20)%Q) /\
  postRentalsReturn 5 (IdInt 1) (shop [open_row] 2)
  = (Some 404, shop [open_row] 2) /\
  map delayFee (rentals (snd (postRentalsReturn 5 (IdInt 1)
                                (shop [open_row] 2)))) = [None].
Proof.
  repeat split; try (vm_compute; reflexivity).
  eexists. split; [vm_compute; reflexivity|]. reflexivity.
Qed.

(** ** Deleting a rental *)

(** C4 (the code departs from the claim): [DELETE /rentals/:id] answers
    404 for a rental that exists, closed or open, and removes nothing. *)
Theorem delete_existing_rental_answers_404 :
  deleteRentals (IdInt 1) (shop [closed_row] 2)
  = (Some 404, shop [closed_row] 2) /\
  deleteRentals (IdInt 1) (shop [open_row] 2)
  = (Some 404, shop [open_row] 2).
Proof. vm_compute. repeat split. Qed.

(** ** Further properties of the rental routes *)

(** X1: [POST /rentals] is all or nothing.  Either it answers 201 and the
    store differs by exactly one appended row, numbered by the serial,
    dated today, with [returnDate] and [delayFee] null, and by one write;
    or it answers 400 or 500 and the store is the one it found.  It never
    ends without an answer. *)
Theorem create_is_all_or_nothing :
  forall (now : date) (body : rentalBody) (s : store),
    (fst (postRentals now body s) = Some 201 /\
     exists row,
       snd (postRentals now body s)
       = mkStore (games s) (customers s) (rentals s ++ [row])
           (rentals_seq s + 1) (S (writes s)) /\
       r_id row = rentals_seq s /\ rentDate row = now /\
       returnDate row = None /\ delayFee row = None)
    \/
    ((fst (postRentals now body s) = Some 400 \/
      fst (postRentals now body s) = Some 500) /\
     snd (postRentals now body s) = s).
Proof.
  intros now body s. rewrite postRentals_eq.
  destruct (rentalsReqSchema body) as [[[c g] d]|]; [|right; auto].
  destruct (asInteger g) as [gi|]; [|right; auto].
  destruct (filter (fun x => g_id x =? gi) (games s)) as [|g0 gs];
    [right; auto|].
  destruct (asInteger c) as [ci|]; [|right; auto].
  destruct (length (filter (fun x => (c_id x =? ci)%Z) (customers s)) <=? 0)%nat;
    [right; auto|].
  destruct (Qle_bool d 0); [right; auto|].
  destruct (Z.of_nat (length (rentals_of gi s)) >=? stockTotal g0);
    [right; auto|].
  destruct (asInteger d) as [di|]; [|right; auto].
  destruct (js_mul (pricePerDay g0) d) as [pr|]; [|right; auto].
  left. split; [reflexivity|].
  eexists. cbn [snd]. split; [reflexivity|]. cbn. auto.
Qed.



(** X3: a request whose three fields are integers within the bounds of
    an [integer] column, for an existing customer and an existing game,
    for a positive number of days, is served with 201 as long as the
    game has fewer rentals on record than units in stock and the price
    is a finite number; the new row carries the customer, the game,
    today's date, the days and the price that JavaScript computes for
    the price per day times the days. *)
Theorem create_succeeds_below_stock :
  forall (now : date) (s : store) (ci gi di : Z) (g0 : game) (pr : Q),
    game_by_id gi s = Some g0 ->
    customer_known ci s = true ->
    in_int4 ci -> in_int4 gi ->
    0 < di <= int4_max ->
    js_mul (pricePerDay g0) (inject_Z di) = Some pr ->
    Z.of_nat (length (rentals_of gi s)) < stockTotal g0 ->
    postRentals now
      (body_of (inject_Z ci) (inject_Z gi) (inject_Z di)) s
    = (Some 201,
       mkStore (games s) (customers s)
         (rentals s ++
            [mkRental (rentals_seq s) ci gi now di None pr None])
         (rentals_seq s + 1)
         (S (writes s))).
Proof.
  intros now s ci gi di g0 pr Hg Hc Hci Hgi Hd Hpr Hlt.
  assert (Hdi : in_int4 di) by (unfold in_int4, int4_min in *; lia).
  pose proof (asInteger_inject_Z ci Hci) as Eci.
  pose proof (asInteger_inject_Z gi Hgi) as Egi.
  pose proof (asInteger_inject_Z di Hdi) as Edi.
  apply (postRentals_succeeds now _ s
           (inject_Z ci) (inject_Z gi) (inject_Z di) ci gi di g0 pr);
    try assumption.
  - apply rentalsReqSchema_intro; try reflexivity;
      eapply int4_is_safe; eassumption.
  - unfold Qlt, inject_Z. cbn. lia.
Qed.

Lemma create_succeeds_below_stock_witness :
  game_by_id 1 (shop [] 1) = Some chess /\
  customer_known 1 (shop [] 1) = true /\
  in_int4 1 /\ in_int4 1 /\
  0 < 3 <= int4_max /\
  js_mul (pricePerDay chess) (inject_Z 3) = Some (30 # 1) /\
  Z.of_nat (length (rentals_of 1 (shop [] 1))) < stockTotal chess /\
  postRentals 20 (body_of (inject_Z 1) (inject_Z 1) (inject_Z 3)) (shop [] 1)
  = (Some 201,
     mkStore (games (shop [] 1)) (customers (shop [] 1))
       (rentals (shop [] 1) ++
          [mkRental (rentals_seq (shop [] 1)) 1 1 20 3 None (30 # 1) None])
       (rentals_seq (shop [] 1) + 1)
       (S (writes (shop [] 1)))).
Proof.
  assert (H1 : game_by_id 1 (shop [] 1) = Some chess) by reflexivity.
  assert (H2 : customer_known 1 (shop [] 1) = true) by reflexivity.
  assert (H3 : in_int4 1) by (unfold in_int4, int4_min, int4_max; lia).
  assert (H4 : 0 < 3 <= int4_max) by (unfold int4_max; lia).
  assert (H5 : js_mul (pricePerDay chess) (inject_Z 3) = Some (30 # 1))
    by (vm_compute; reflexivity).
  assert (H6 : Z.of_nat (length (rentals_of 1 (shop [] 1)))
               < stockTotal chess) by (cbn; lia).
  split; [exact H1|]. split; [exact H2|]. split; [exact H3|].
  split; [exact H3|]. split; [exact H4|]. split; [exact H5|].
  split; [exact H6|].
  exact (create_succeeds_below_stock 20 (shop [] 1) 1 1 3 chess (30 # 1)
           H1 H2 H3 H3 H4 H5 H6).
Defined.

(** X4: once a game has as many rentals on record as units in stock, no
    create request that names it succeeds, whoever asks and for however
    many days: the store is left as it was; and a request that would
    otherwise pass (known customer, positive days) is answered 400. *)
Theorem create_refused_when_stock_used_up :
  forall (now : date) (body : rentalBody) (s : store)
         (g : Q) (gi : Z) (g0 : game),
    b_gameId body = JNum g ->
    asInteger g = Some gi ->
    game_by_id gi s = Some g0 ->
    stockTotal g0 <= Z.of_nat (length (rentals_of gi s)) ->
    snd (postRentals now body s) = s /\
    fst (postRentals now body s) <> Some 201 /\
    (forall d, b_daysRented body = JNum d -> (0 < d)%Q ->
               customer_found body s = true ->
               fst (postRentals now body s) = Some 400).
Proof.
  intros now body s g gi g0 Hbg Hg Hgame Hfull.
  rewrite postRentals_eq.
  destruct (rentalsReqSchema body) as [[[c g'] d']|] eqn:Hv.
  2:{ repeat split; discriminate. }
  apply rentalsReqSchema_inv in Hv. destruct Hv as (Hbc & Hbg' & Hbd).
  assert (g' = g) as -> by congruence.
  rewrite Hg. unfold game_by_id in Hgame. rewrite find_filter in Hgame.
  destruct (filter (fun x => g_id x =? gi) (games s)) as [|g1 gs];
    [discriminate|].
  injection Hgame as ->.
  unfold customer_found, customer_known. rewrite Hbc.
  destruct (asInteger c) as [ci|];
    [|repeat split; try discriminate; intros; discriminate].
  rewrite existsb_filter_length.
  destruct (filter (fun x => c_id x =? ci) (customers s)) as [|c0 cs];
    cbn [length Nat.leb Nat.ltb];
    [repeat split; try discriminate; intros; discriminate|].
  destruct (Qle_bool d' 0); [repeat split; discriminate|].
  rewrite Z.geb_leb.
  destruct (Z.leb_spec (stockTotal g0) (Z.of_nat (length (rentals_of gi s))));
    [|lia].
  repeat split; discriminate.
Qed.

Lemma create_refused_when_stock_used_up_witness :
  b_gameId (body_of 1 1 3) = JNum 1 /\
  asInteger 1 = Some 1 /\
  game_by_id 1 shop_after_rent = Some chess /\
  stockTotal chess <= Z.of_nat (length (rentals_of 1 shop_after_rent)) /\
  snd (postRentals 21 (body_of 1 1 3) shop_after_rent) = shop_after_rent /\
  fst (postRentals 21 (body_of 1 1 3) shop_after_rent) <> Some 201 /\
  (forall d, b_daysRented (body_of 1 1 3) = JNum d -> (0 < d)%Q ->
             customer_found (body_of 1 1 3) shop_after_rent = true ->
             fst (postRentals 21 (body_of 1 1 3) shop_after_rent) = Some 400).
Proof.
  assert (H1 : b_gameId (body_of 1 1 3) = JNum 1) by reflexivity.
  assert (H2 : asInteger 1 = Some 1) by reflexivity.
  assert (H3 : game_by_id 1 shop_after_rent = Some chess) by reflexivity.
  assert (H4 : stockTotal chess
               <= Z.of_nat (length (rentals_of 1 shop_after_rent)))
    by (cbn; lia).
  split; [exact H1|]. split; [exact H2|]. split; [exact H3|].
  split; [exact H4|].
  exact (create_refused_when_stock_used_up 21 (body_of 1 1 3) shop_after_rent
           1 1 chess H1 H2 H3 H4).
Defined.

(** X5: a create request for a game that exists, by a customer id that
    is an integer but names no customer, is answered 400 and writes
    nothing, whatever number of days it asks for. *)
Theorem create_unknown_customer_answers_400 :
  forall (now : date) (body : rentalBody) (s : store)
         (c d : Q) (ci : Z),
    b_customerId body = JNum c ->
    asInteger c = Some ci ->
    customer_known ci s = false ->
    b_daysRented body = JNum d ->
    game_found body s = true ->
    postRentals now body s = (Some 400, s).
Proof.
  intros now body s c d ci Hbc Hc Hk Hbd Hgf.
  rewrite postRentals_eq.
  unfold game_found in Hgf.
  destruct (b_gameId body) as [|g|] eqn:Hbg; try discriminate.
  destruct (asInteger g) as [gi|] eqn:Hg; [|discriminate].
  unfold rentalsReqSchema, number_required. rewrite Hbc, Hbd, Hbg.
  rewrite (int4_is_safe c ci Hc), (int4_is_safe g gi Hg).
  destruct (is_safe d); [|reflexivity].
  rewrite Hg. rewrite existsb_filter_length in Hgf.
  destruct (filter (fun x => g_id x =? gi) (games s)) as [|g0 gs];
    [discriminate|].
  rewrite Hc.
  unfold customer_known in Hk. rewrite existsb_filter_length in Hk.
  apply Nat.ltb_ge in Hk.
  destruct (Nat.leb_spec
              (length (filter (fun x => c_id x =? ci) (customers s))) 0);
    [reflexivity|lia].
Qed.

Lemma create_unknown_customer_answers_400_witness :
  b_customerId (body_of 7 1 3) = JNum 7 /\
  asInteger 7 = Some 7 /\
  customer_known 7 (shop [] 1) = false /\
  b_daysRented (body_of 7 1 3) = JNum 3 /\
  game_found (body_of 7 1 3) (shop [] 1) = true /\
  postRentals 20 (body_of 7 1 3) (shop [] 1) = (Some 400, shop [] 1).
Proof.
  split; [reflexivity|]. split; [reflexivity|]. split; [reflexivity|].
  split; [reflexivity|]. split; [reflexivity|].
  apply (create_unknown_customer_answers_400 20 (body_of 7 1 3) (shop [] 1)
           7 3 7); reflexivity.
Defined.

(** X6: [DELETE /rentals/:id] never removes anything: for every id and
    every store it leaves the store as it was, executes no statement that
    writes, and answers 404 when a rental with that id exists and 500
    when none does. *)
Theorem delete_never_removes :
  forall (id : idParam) (s : store),
    snd (deleteRentals id s) = s /\
    writes (snd (deleteRentals id s)) = writes s /\
    fst (deleteRentals id s) = Some (if rental_known id s then 404 else 500).
Proof.
  intros id s. rewrite deleteRentals_eq. cbn [fst snd].
  split; [reflexivity|]. split; reflexivity.
Qed.

(** A lifecycle step either changes nothing or appends one row. *)
Lemma step_shape (o : op) (s : store) :
  step o s = s \/
  exists ci gi now di price,
    customer_known ci s = true /\
    existsb (fun g => g_id g =? gi) (games s) = true /\
    step o s =
    mkStore (games s) (customers s)
      (rentals s ++ [mkRental (rentals_seq s) ci gi now di None price None])
      (rentals_seq s + 1) (S (writes s)).
Proof.
  destruct o as [now body|now id|id]; cbn [step].
  - destruct (postRentals_cases now body s)
      as [[-> _]|(c & g & d & gi & ci & di & g0 & gs & pr & Hc)]; [now left|].
    destruct Hc as (_ & _ & Hf & _ & Hk & _ & _ & _ & _ & ->).
    right. exists ci, gi, now, di, pr.
    split; [exact Hk|]. split; [|reflexivity].
    rewrite existsb_filter_length, Hf. reflexivity.
  - left. now rewrite postRentalsReturn_eq.
  - left. now rewrite deleteRentals_eq.
Qed.

(** X7: no rental is ever closed through the routes.  If every rental of
    a store is open, with no fee recorded, then after any sequence of
    create, return and delete requests every rental still is. *)
Theorem rentals_stay_open :
  forall s0 s : store,
    (forall r, In r (rentals s0) -> returnDate r = None /\ delayFee r = None) ->
    reachable s0 s ->
    forall r, In r (rentals s) -> returnDate r = None /\ delayFee r = None.
Proof.
  intros s0 s H0 Hr. induction Hr as [|s o Hr IH]; [exact H0|].
  destruct (step_shape o s)
    as [->|(ci & gi & now & di & price & _ & _ & ->)]; [exact IH|].
  cbn [rentals]. intros r Hin. apply in_app_or in Hin.
  destruct Hin as [Hin|[<-|[]]]; [now apply IH|].
  cbn. auto.
Qed.

Lemma rentals_stay_open_witness :
  (forall r, In r (rentals (shop [open_row] 2)) ->
             returnDate r = None /\ delayFee r = None) /\
  reachable (shop [open_row] 2)
    (step (Delete (IdInt 1)) (step (Close 9 (IdInt 1)) (shop [open_row] 2))) /\
  forall r,
    In r (rentals (step (Delete (IdInt 1))
                     (step (Close 9 (IdInt 1)) (shop [open_row] 2)))) ->
    returnDate r = None /\ delayFee r = None.
Proof.
  assert (H0 : forall r, In r (rentals (shop [open_row] 2)) ->
                         returnDate r = None /\ delayFee r = None).
  { cbn. intros r [<-|[]]. cbn. auto. }
  assert (Hr : reachable (shop [open_row] 2)
                 (step (Delete (IdInt 1))
                    (step (Close 9 (IdInt 1)) (shop [open_row] 2)))).
  { apply reach_step, reach_step, reach_start. }
  split; [exact H0|]. split; [exact Hr|].
  exact (rentals_stay_open _ _ H0 Hr).
Defined.

Lemma rentals_bounded_step (o : op) (s : store) :
  NoDup (map g_id (games s)) ->
  (forall g, In g (games s) ->
             Z.of_nat (length (rentals_of (g_id g) s)) <= stockTotal g) ->
  forall g, In g (games (step o s)) ->
            Z.of_nat (length (rentals_of (g_id g) (step o s))) <= stockTotal g.
Proof.
  intros Hnd Hinv.
  destruct o as [now body|now id|id]; cbn [step].
  - destruct (postRentals_cases now body s)
      as [[-> _]|(c & g & d & gi & ci & di & g0 & gs & pr & H)];
      [exact Hinv|].
    destruct H as (_ & _ & Hf & _ & _ & _ & Hlt & _ & _ & ->).
    cbn [snd]. intros x Hx. cbn [games] in Hx.
    unfold rentals_of. cbn [rentals].
    rewrite filter_app, length_app. cbn [filter gameId].
    assert (Hin : In g0 (filter (fun y => g_id y =? gi) (games s)))
      by (rewrite Hf; now left).
    apply filter_In in Hin. destruct Hin as [Hin0 Hid0].
    apply Z.eqb_eq in Hid0.
    specialize (Hinv x Hx). unfold rentals_of in Hinv, Hlt.
    destruct (Z.eqb_spec gi (g_id x)) as [Heq|Hne]; cbn [length].
    + assert (x = g0) as ->
        by (apply (key_unique g_id (games s)); auto; congruence).
      rewrite Hid0. lia.
    + lia.
  - now rewrite postRentalsReturn_eq.
  - now rewrite deleteRentals_eq.
Qed.

(** X8: a game is rented at most as many times as it has units in stock,
    ever.  Start from a ledger without rentals whose games carry distinct
    ids and a stock that is not negative: after any sequence of create,
    return and delete requests the number of rentals on record for a
    game, whatever their state, is at most its [stockTotal]. *)
Theorem rentals_on_record_bounded_by_stock :
  forall s0 s : store,
    NoDup (map g_id (games s0)) ->
    (forall g, In g (games s0) -> 0 <= stockTotal g) ->
    rentals s0 = [] ->
    reachable s0 s ->
    forall g, In g (games s) ->
              Z.of_nat (length (rentals_of (g_id g) s)) <= stockTotal g.
Proof.
  intros s0 s Hnd Hstock Hempty Hr.
  assert (Hgoal : games s = games s0 /\
                  forall g, In g (games s) ->
                    Z.of_nat (length (rentals_of (g_id g) s)) <= stockTotal g).
  { induction Hr as [|s o Hr [IHg IHs]].
    - split; [reflexivity|]. intros g Hg. unfold rentals_of.
      rewrite Hempty. cbn [filter length]. now apply Hstock.
    - split; [now rewrite step_games|].
      apply rentals_bounded_step; [now rewrite IHg|exact IHs]. }
  exact (proj2 Hgoal).
Qed.

Lemma rentals_on_record_bounded_by_stock_witness :
  NoDup (map g_id (games (shop [] 1))) /\
  (forall g, In g (games (shop [] 1)) -> 0 <= stockTotal g) /\
  rentals (shop [] 1) = [] /\
  reachable (shop [] 1)
    (step (Create 22 (body_of 1 1 1))
       (step (Close 21 (IdInt 1))
          (step (Create 20 (body_of 1 1 3)) (shop [] 1)))) /\
  forall g,
    In g (games (step (Create 22 (body_of 1 1 1))
                   (step (Close 21 (IdInt 1))
                      (step (Create 20 (body_of 1 1 3)) (shop [] 1))))) ->
    Z.of_nat
      (length (rentals_of (g_id g)
                 (step (Create 22 (body_of 1 1 1))
                    (step (Close 21 (IdInt 1))
                       (step (Create 20 (body_of 1 1 3)) (shop [] 1))))))
    <= stockTotal g.
Proof.
  assert (Hnd : NoDup (map g_id (games (shop [] 1)))).
  { cbn. constructor; [intros []|constructor]. }
  assert (Hst : forall g, In g (games (shop [] 1)) -> 0 <= stockTotal g).
  { cbn. intros g [<-|[]]. cbn. lia. }
  assert (Hr : reachable (shop [] 1)
                 (step (Create 22 (body_of 1 1 1))
                    (step (Close 21 (IdInt 1))
                       (step (Create 20 (body_of 1 1 3)) (shop [] 1))))).
  { apply reach_step, reach_step, reach_step, reach_start. }
  split; [exact Hnd|]. split; [exact Hst|]. split; [reflexivity|].
  split; [exact Hr|].
  exact (rentals_on_record_bounded_by_stock (shop [] 1) _ Hnd Hst eq_refl Hr).
Defined.

(** X9: the lifecycle routes only ever append.  After any sequence of
    create, return and delete requests the tables [games] and
    [customers] are the ones found, the rows of [rentals] found are
    still there, unchanged and in place, followed by one new row for each
    statement that wrote, and the serial has advanced by as many. *)
Theorem lifecycle_only_appends :
  forall (ops : list op) (s : store),
    games (run ops s) = games s /\
    customers (run ops s) = customers s /\
    exists new,
      rentals (run ops s) = rentals s ++ new /\
      writes (run ops s) = (writes s + length new)%nat /\
      rentals_seq (run ops s) = rentals_seq s + Z.of_nat (length new).
Proof.
  intros ops. induction ops as [|o ops IH]; intros s; cbn [run fold_left].
  - repeat split. exists []. rewrite app_nil_r. cbn [length].
    repeat split; [lia|lia].
  - specialize (IH (step o s)). unfold run in IH.
    destruct IH as (Hg & Hc & new & Hr & Hw & Hs).
    destruct (step_shape o s)
      as [E|(ci & gi & now & di & price & _ & _ & E)]; rewrite E in *.
    + repeat split; try assumption. exists new. auto.
    + cbn [games customers rentals writes rentals_seq] in *.
      repeat split; try assumption.
      eexists (_ :: new). rewrite Hr, <- app_assoc. cbn [app length].
      repeat split; lia.
Qed.

(** X10: the fee of lines 354-370.  For a rental of a positive number
    of days whose [originalPrice] is an integer price per day times the
    days, the block yields no fee up to the expected return date (rent
    date plus days) and, after it, exactly the price per day times the
    number of days late, as long as these products stay within 2^53,
    where the arithmetic of doubles is exact. *)
Theorem delay_fee_is_daily_price_times_late_days :
  forall (r : rental) (p : Z) (today : date),
    0 < daysRented r <= 2 ^ 53 ->
    (originalPrice r == inject_Z (p * daysRented r))%Q ->
    Z.abs (p * daysRented r) <= 2 ^ 53 ->
    today - (rentDate r + daysRented r) <= 2 ^ 53 ->
    Z.abs (p * (today - (rentDate r + daysRented r))) <= 2 ^ 53 ->
    match computeDelayFee r today with
    | None => today <= rentDate r + daysRented r
    | Some fee =>
      rentDate r + daysRented r < today /\
      fee = inject_Z (p * (today - (rentDate r + daysRented r)))
    end.
Proof.
  intros r p today Hd Hp Hpd Hlate Hpl.
  destruct (Z_le_gt_dec today (rentDate r + daysRented r)) as [Hle|Hgt].
  - now rewrite computeDelayFee_on_time.
  - rewrite computeDelayFee_late by lia.
    rewrite (js_div_integers (originalPrice r) (inject_Z (daysRented r))
               p (daysRented r)); try assumption; try reflexivity; try lia.
    assert (Ha : Z.abs p <= 2 ^ 53).
    { rewrite Z.abs_mul in Hpd. nia. }
    rewrite (js_mul_integers (inject_Z p)
               (inject_Z (today - (rentDate r + daysRented r)))
               p (today - (rentDate r + daysRented r)));
      try assumption; try reflexivity; try lia.
    split; [lia|reflexivity].
Qed.

Lemma delay_fee_is_daily_price_times_late_days_witness :
  0 < daysRented open_row <= 2 ^ 53 /\
  (originalPrice open_row == inject_Z (10 * daysRented open_row))%Q /\
  Z.abs (10 * daysRented open_row) <= 2 ^ 53 /\
  5 - (rentDate open_row + daysRented open_row) <= 2 ^ 53 /\
  Z.abs (10 * (5 - (rentDate open_row + daysRented open_row))) <= 2 ^ 53 /\
  match computeDelayFee open_row 5 with
  | None => 5 <= rentDate open_row + daysRented open_row
  | Some fee =>
    rentDate open_row + daysRented open_row < 5 /\
    fee = inject_Z (10 * (5 - (rentDate open_row + daysRented open_row)))
  end.
Proof.
  assert (H1 : 0 < daysRented open_row <= 2 ^ 53) by (cbn; lia).
  assert (H2 : (originalPrice open_row
                == inject_Z (10 * daysRented open_row))%Q) by reflexivity.
  assert (H3 : Z.abs (10 * daysRented open_row) <= 2 ^ 53) by (cbn; lia).
  assert (H4 : 5 - (rentDate open_row + daysRented open_row) <= 2 ^ 53)
    by (cbn; lia).
  assert (H5 : Z.abs (10 * (5 - (rentDate open_row + daysRented open_row)))
               <= 2 ^ 53) by (cbn; lia).
  split; [exact H1|]. split; [exact H2|]. split; [exact H3|].
  split; [exact H4|]. split; [exact H5|].
  exact (delay_fee_is_daily_price_times_late_days open_row 10 5
           H1 H2 H3 H4 H5).
Defined.

(** ** The listing of rentals *)

Lemma filter_key_unique {A : Type} (key : A -> Z) (l : list A) (a : A) (k : Z) :
  NoDup (map key l) -> In a l -> key a = k ->
  filter (fun x => key x =? k) l = [a].
Proof.
  intros Hnd Hin <-.
  induction l as [|x l IH]; [contradiction|].
  cbn [map] in Hnd. inversion Hnd as [|? ? Hnotin Hnd']; subst.
  cbn [filter]. destruct Hin as [->|Hin].
  - rewrite Z.eqb_refl. f_equal.
    clear IH Hnd Hnd'. induction l as [|y l IHl]; [reflexivity|].
    cbn [filter]. destruct (Z.eqb_spec (key y) (key a)) as [E|_].
    + exfalso. apply Hnotin. cbn [map]. left. exact E.
    + apply IHl. intros H. apply Hnotin. cbn [map]. now right.
  - destruct (Z.eqb_spec (key x) (key a)) as [E|_].
    + exfalso. apply Hnotin. rewrite E. now apply in_map.
    + now apply IH.
Qed.

Lemma references_resolve_step (o : op) (s : store) :
  references_resolve s -> references_resolve (step o s).
Proof.
  intros H.
  destruct (step_shape o s)
    as [->|(ci & gi & now & di & price & Hc & Hg & ->)]; [exact H|].
  intros r Hin. cbn [rentals] in Hin.
  unfold customer_known. cbn [customers games].
  apply in_app_or in Hin. destruct Hin as [Hin|[<-|[]]].
  - exact (H r Hin).
  - cbn [customerId gameId]. split; assumption.
Qed.

Lemma references_resolve_reachable (s0 s : store) :
  rentals s0 = [] -> reachable s0 s ->
  games s = games s0 /\ customers s = customers s0 /\ references_resolve s.
Proof.
  intros He Hr. induction Hr as [|s o Hr (IHg & IHc & IH)].
  - split; [reflexivity|]. split; [reflexivity|].
    intros r Hin. rewrite He in Hin. contradiction.
  - split; [now rewrite step_games|]. split.
    + destruct (step_shape o s)
        as [->|(ci & gi & now & di & price & _ & _ & ->)]; exact IHc.
    + now apply references_resolve_step.
Qed.

Lemma filter_key_cases {A : Type} (key : A -> Z) (l : list A) (k : Z) :
  NoDup (map key l) ->
  (existsb (fun x => key x =? k) l = false /\
   filter (fun x => key x =? k) l = [])
  \/
  (existsb (fun x => key x =? k) l = true /\
   exists a, filter (fun x => key x =? k) l = [a] /\ key a = k).
Proof.
  intros Hnd. destruct (existsb (fun x => key x =? k) l) eqn:Ex.
  - right. split; [reflexivity|].
    apply existsb_exists in Ex. destruct Ex as (a & Hin & Heq).
    apply Z.eqb_eq in Heq. exists a. split; [|exact Heq].
    now apply filter_key_unique.
  - left. split; [reflexivity|].
    rewrite existsb_filter_length in Ex.
    destruct (filter (fun x => key x =? k) l); [reflexivity|discriminate].
Qed.

(** With distinct ids, the join gives one row to a rental whose customer
    and game exist, and none to any other. *)
Lemma listing_of_rental (s : store) (r : rental) :
  NoDup (map g_id (games s)) ->
  NoDup (map c_id (customers s)) ->
  flat_map
    (fun c =>
       map (fun g => listed r c g)
           (filter (fun g => g_id g =? gameId r) (games s)))
    (filter (fun c => c_id c =? customerId r) (customers s))
  = if resolves s r
    then match filter (fun c => c_id c =? customerId r) (customers s),
               filter (fun g => g_id g =? gameId r) (games s) with
         | c :: _, g :: _ => [listed r c g]
         | _, _ => []
         end
    else [].
Proof.
  intros Hg Hc. unfold resolves, customer_known.
  destruct (filter_key_cases c_id (customers s) (customerId r) Hc)
    as [[-> ->]|[-> (c & -> & _)]]; [reflexivity|].
  destruct (filter_key_cases g_id (games s) (gameId r) Hg)
    as [[-> ->]|[-> (g & -> & _)]]; reflexivity.
Qed.

Lemma listing_rows_carry_game_id (s : store) (row : listedRental) :
  In row (snd (getRentals s)) ->
  l_id row = l_gameId row /\
  exists r, In r (rentals s) /\ listed_columns row = rental_columns r.
Proof.
  unfold getRentals. cbn [snd]. intros Hin.
  apply in_flat_map in Hin. destruct Hin as (r & Hr & Hin).
  apply in_flat_map in Hin. destruct Hin as (c & _ & Hin).
  apply in_map_iff in Hin. destruct Hin as (g & <- & Hg).
  apply filter_In in Hg. destruct Hg as [_ Hg]. apply Z.eqb_eq in Hg.
  split; [exact Hg|]. exists r. split; [exact Hr|reflexivity].
Qed.

Lemma listing_of_resolved (s : store) (rs : list rental) :
  NoDup (map g_id (games s)) ->
  NoDup (map c_id (customers s)) ->
  (forall r, In r rs -> resolves s r = true) ->
  map listed_columns
    (flat_map
       (fun r =>
          flat_map
            (fun c =>
               map (fun g => listed r c g)
                   (filter (fun g => g_id g =? gameId r) (games s)))
            (filter (fun c => c_id c =? customerId r) (customers s)))
       rs)
  = map rental_columns rs.
Proof.
  intros Hg Hc. induction rs as [|r rs IH]; intros H; [reflexivity|].
  cbn [flat_map map]. rewrite map_app, IH by (intros x Hx; apply H; now right).
  rewrite (listing_of_rental s r Hg Hc).
  pose proof (H r (or_introl eq_refl)) as Hres. rewrite Hres.
  unfold resolves, customer_known in Hres.
  apply andb_prop in Hres. destruct Hres as [Hck Hgk].
  rewrite existsb_filter_length in Hck.
  rewrite existsb_filter_length in Hgk.
  destruct (filter (fun c => c_id c =? customerId r) (customers s));
    [discriminate|].
  destruct (filter (fun g => g_id g =? gameId r) (games s));
    [discriminate|].
  reflexivity.
Qed.

(** X11: [GET /rentals] answers 200 and, on a store reached from an empty
    ledger by create, return and delete requests over games and customers
    with distinct ids, has exactly one row for every rental, carrying the
    rental's customer, game, dates, days, price and fee.  In every row
    the key [id] holds the id of the game: the id of the rental itself is
    not in the answer. *)
Theorem listing_shows_every_rental_once :
  forall s0 s : store,
    NoDup (map g_id (games s0)) ->
    NoDup (map c_id (customers s0)) ->
    rentals s0 = [] ->
    reachable s0 s ->
    fst (getRentals s) = 200 /\
    Permutation (map listed_columns (snd (getRentals s)))
                (map rental_columns (rentals s)) /\
    forall row, In row (snd (getRentals s)) -> l_id row = l_gameId row.
Proof.
  intros s0 s Hg Hc He Hr.
  destruct (references_resolve_reachable s0 s He Hr) as (Eg & Ec & Href).
  split; [reflexivity|]. split.
  - unfold getRentals. cbn [snd].
    rewrite listing_of_resolved;
      [apply Permutation_refl|now rewrite Eg|now rewrite Ec|].
    intros r Hin. destruct (Href r Hin) as [H1 H2].
    unfold resolves. now rewrite H1, H2.
  - intros row Hin. exact (proj1 (listing_rows_carry_game_id s row Hin)).
Qed.

Lemma listing_shows_every_rental_once_witness :
  NoDup (map g_id (games (shop [] 1))) /\
  NoDup (map c_id (customers (shop [] 1))) /\
  rentals (shop [] 1) = [] /\
  reachable (shop [] 1) (step (Create 20 (body_of 1 1 3)) (shop [] 1)) /\
  fst (getRentals (step (Create 20 (body_of 1 1 3)) (shop [] 1))) = 200 /\
  Permutation
    (map listed_columns
       (snd (getRentals (step (Create 20 (body_of 1 1 3)) (shop [] 1)))))
    (map rental_columns
       (rentals (step (Create 20 (body_of 1 1 3)) (shop [] 1)))) /\
  forall row,
    In row (snd (getRentals (step (Create 20 (body_of 1 1 3)) (shop [] 1)))) ->
    l_id row = l_gameId row.
Proof.
  assert (Hg : NoDup (map g_id (games (shop [] 1)))).
  { cbn. constructor; [intros []|constructor]. }
  assert (Hc : NoDup (map c_id (customers (shop [] 1)))).
  { cbn. constructor; [intros []|constructor]. }
  assert (Hr : reachable (shop [] 1)
                 (step (Create 20 (body_of 1 1 3)) (shop [] 1))).
  { apply reach_step, reach_start. }
  split; [exact Hg|]. split; [exact Hc|]. split; [reflexivity|].
  split; [exact Hr|].
  exact (listing_shows_every_rental_once (shop [] 1) _ Hg Hc eq_refl Hr).
Defined.

(** X12: the joins of [GET /rentals] are inner joins.  On any store whose
    games and customers carry distinct ids, the answer has as many rows
    as there are rentals whose customer and game both exist: a rental
    that names a missing customer or a missing game gets no row, and no
    error is raised. *)
Theorem listing_omits_unresolved_rentals :
  forall s : store,
    NoDup (map g_id (games s)) ->
    NoDup (map c_id (customers s)) ->
    length (snd (getRentals s))
    = length (filter (resolves s) (rentals s)).
Proof.
  intros s Hg Hc. unfold getRentals. cbn [snd].
  induction (rentals s) as [|r rs IH]; [reflexivity|].
  cbn [flat_map filter]. rewrite length_app, IH.
  rewrite (listing_of_rental s r Hg Hc).
  destruct (resolves s r) eqn:Hres; [|reflexivity].
  unfold resolves, customer_known in Hres.
  apply andb_prop in Hres. destruct Hres as [Hck Hgk].
  rewrite existsb_filter_length in Hck.
  rewrite existsb_filter_length in Hgk.
  destruct (filter (fun c => c_id c =? customerId r) (customers s));
    [discriminate|].
  destruct (filter (fun g => g_id g =? gameId r) (games s));
    [discriminate|].
  reflexivity.
Qed.

Lemma listing_omits_unresolved_rentals_witness :
  NoDup (map g_id (games (mkStore [chess] [] [open_row] 2 0))) /\
  NoDup (map c_id (customers (mkStore [chess] [] [open_row] 2 0))) /\
  length (snd (getRentals (mkStore [chess] [] [open_row] 2 0)))
  = length (filter (resolves (mkStore [chess] [] [open_row] 2 0))
              (rentals (mkStore [chess] [] [open_row] 2 0))).
Proof.
  assert (Hg : NoDup (map g_id (games (mkStore [chess] [] [open_row] 2 0)))).
  { cbn. constructor; [intros []|constructor]. }
  assert (Hc : NoDup (map c_id
                        (customers (mkStore [chess] [] [open_row] 2 0)))).
  { cbn. constructor. }
  split; [exact Hg|]. split; [exact Hc|].
  exact (listing_omits_unresolved_rentals _ Hg Hc).
Defined.

(** ** What validation lets through *)

Lemma string_required_inv (v : strField) (s : string) :
  string_required v = Some s -> v = SStr s /\ s <> EmptyString.
Proof.
  unfold string_required. destruct v as [|s0|]; try discriminate.
  destruct (String.eqb_spec s0 EmptyString) as [|Hne]; [discriminate|].
  intros H. injection H as <-. auto.
Qed.

Lemma string_required_intro (s : string) :
  s <> EmptyString -> string_required (SStr s) = Some s.
Proof.
  intros H. unfold string_required.
  destruct (String.eqb_spec s EmptyString); [contradiction|reflexivity].
Qed.

Lemma number_min_inv (m : Q) (v : jsval) (q : Q) :
  number_min m v = Some q -> v = JNum q /\ (m <= q)%Q.
Proof.
  unfold number_min. destruct v as [|q0|]; try discriminate.
  destruct (is_safe q0); [|discriminate]. cbn [andb].
  destruct (Qle_bool m q0) eqn:E; [|discriminate].
  intros H. injection H as <-. split; [reflexivity|].
  now apply Qle_bool_iff.
Qed.

Lemma gamesSchema_inv (b : gameBody) (name image : string) (stock : Q)
      (cat : string) (price : Q) :
  gamesSchema b = Some (name, image, stock, cat, price) ->
  b = mkGameBody (SStr name) (SStr image) (JNum stock) (SStr cat)
        (JNum price) /\
  name <> EmptyString /\ image <> EmptyString /\ cat <> EmptyString /\
  (1 <= stock)%Q /\ (1 <= price)%Q.
Proof.
  unfold gamesSchema.
  destruct (string_required (gb_name b)) as [n|] eqn:En; [|discriminate].
  destruct (string_required (gb_image b)) as [i|] eqn:Ei; [|discriminate].
  destruct (number_min 1 (gb_stockTotal b)) as [s|] eqn:Es; [|discriminate].
  destruct (string_required (gb_categoryId b)) as [c|] eqn:Ec;
    [|discriminate].
  destruct (number_min 1 (gb_pricePerDay b)) as [p|] eqn:Ep; [|discriminate].
  intros H. injection H as <- <- <- <- <-.
  apply string_required_inv in En, Ei, Ec.
  apply number_min_inv in Es, Ep.
  destruct En, Ei, Ec, Es, Ep. destruct b; cbn in *; subst.
  repeat split; assumption.
Qed.

Lemma customersSchema_inv (E : backend) (b : customerBody)
      (name phone cpf birthday : string) :
  customersSchema E b = Some (name, phone, cpf, birthday) ->
  b = mkCustomerBody (SStr name) (SStr phone) (SStr cpf) (SStr birthday) /\
  name <> EmptyString /\
  (10 <= String.length phone <= 11)%nat /\ all_digits phone = true /\
  String.length cpf = 11%nat /\ all_digits cpf = true /\
  isValidDate E birthday = true.
Proof.
  unfold customersSchema, phone_rule, cpf_rule, digits_only.
  destruct (string_required (cb_name b)) as [n|] eqn:En; [|discriminate].
  destruct (string_required (cb_phone b)) as [p|] eqn:Ep; [|discriminate].
  destruct ((10 <=? String.length p)%nat && (String.length p <=? 11)%nat
            && (negb (String.eqb p EmptyString) && all_digits p)) eqn:Hp;
    [|discriminate].
  destruct (string_required (cb_cpf b)) as [c|] eqn:Ec; [|discriminate].
  destruct ((String.length c =? 11)%nat
            && (negb (String.eqb c EmptyString) && all_digits c)) eqn:Hc;
    [|discriminate].
  destruct (string_required (cb_birthday b)) as [y|] eqn:Ey; [|discriminate].
  destruct (isValidDate E y) eqn:Hy; [|discriminate].
  intros H. injection H as <- <- <- <-.
  apply string_required_inv in En, Ep, Ec, Ey.
  destruct En as [En1 En2], Ep as [Ep1 _], Ec as [Ec1 _], Ey as [Ey1 _].
  apply andb_prop in Hp. destruct Hp as [Hp1 Hp2].
  apply andb_prop in Hp1. destruct Hp1 as [Hp1 Hp3].
  apply andb_prop in Hp2. destruct Hp2 as [_ Hp2].
  apply andb_prop in Hc. destruct Hc as [Hc1 Hc2].
  apply andb_prop in Hc2. destruct Hc2 as [_ Hc2].
  apply Nat.leb_le in Hp1, Hp3. apply Nat.eqb_eq in Hc1.
  destruct b; cbn in *; subst. repeat split; assumption.
Qed.

Lemma integer_above_one (q : Q) (n : Z) :
  (1 <= q)%Q -> asInteger q = Some n -> 1 <= n.
Proof.
  intros Hle Hn. apply asInteger_sound in Hn. rewrite Hn in Hle.
  unfold Qle, inject_Z in Hle. cbn in Hle. lia.
Qed.

Lemma NoDup_snoc {A : Type} (l : list A) (a : A) :
  NoDup l -> ~ In a l -> NoDup (l ++ [a]).
Proof.
  intros Hl Ha. apply NoDup_app; [exact Hl|repeat constructor; intros []|].
  intros x Hx [<-|[]]. contradiction.
Qed.

Lemma map_id_when {A : Type} (f : A -> A) (l : list A) :
  (forall a, In a l -> f a = a) -> map f l = l.
Proof.
  intros H. rewrite <- (map_id l) at 2. apply map_ext_in. exact H.
Qed.

Lemma is_digit_not_nul (c : ascii) :
  is_digit c = true -> Ascii.eqb c Ascii.zero = false.
Proof.
  intros H. destruct (Ascii.eqb_spec c Ascii.zero) as [->|]; [|reflexivity].
  discriminate H.
Qed.

(** The digits of a phone number or a cpf hold no character of code 0. *)
Lemma all_digits_no_nul (s : string) :
  all_digits s = true -> has_nul s = false.
Proof.
  induction s as [|c s IH]; [reflexivity|].
  cbn [all_digits has_nul]. intros H. apply andb_prop in H.
  destruct H as [Hc Hs]. now rewrite (is_digit_not_nul c Hc), IH.
Qed.

Lemma filter_split_perm {A : Type} (f : A -> bool) (l : list A) :
  Permutation (filter (fun x => negb (f x)) l ++ filter f l) l.
Proof.
  induction l as [|a l IH]; [constructor|].
  cbn [filter]. destruct (f a); cbn [negb app].
  - apply Permutation_sym, Permutation_cons_app, Permutation_sym, IH.
  - now constructor.
Qed.


(** ** The catalogue routes, unfolded *)

Ltac run_route :=
  cbv beta iota zeta delta
    [hserve htry_catch500 hbind hwhen hsend hthrow hret
     select_categories_by_name select_categories_by_id insert_category
     insert_game select_customers_by_cpf select_customerRows_by_id
     insert_customer update_customer].

Lemma postCategories_eq (v : strField) (d : catalogue) :
  postCategories v d =
  match categoriesSchema v with
  | None => (Some 400, d)
  | Some name =>
    if has_nul name then (Some 500, d)
    else if category_named name d then (Some 409, d)
    else
      (Some 201,
       mkCatalogue
         (categories d ++ [mkCategory (categories_seq d) name])
         (categories_seq d + 1)
         (gameRows d) (games_seq d) (customerRows d) (customers_seq d))
  end.
Proof.
  unfold postCategories, category_named.
  destruct (categoriesSchema v) as [name|]; [|reflexivity].
  rewrite existsb_filter_length. run_route.
  destruct (has_nul name); [reflexivity|].
  destruct (0 <? length (filter (fun c => String.eqb (cat_name c) name)
                                (categories d)))%nat; reflexivity.
Qed.

Lemma postGames_eq (E : backend) (body : gameBody) (d : catalogue) :
  postGames E body d =
  match gamesSchema body with
  | None => (Some 400, d)
  | Some (name, image, stock, cat, price) =>
    match int4in E cat with
    | None => (Some 500, d)
    | Some ct =>
      if existsb (fun c => cat_id c =? ct) (categories d)
      then
        if has_nul name || has_nul image then (Some 500, d)
        else
          match asInteger stock with
          | None => (Some 500, d)
          | Some st =>
            (Some 201,
             mkCatalogue (categories d) (categories_seq d)
               (gameRows d
                ++ [mkGameRow (games_seq d) name image st ct price])
               (games_seq d + 1)
               (customerRows d) (customers_seq d))
          end
      else (Some 400, d)
    end
  end.
Proof.
  unfold postGames.
  destruct (gamesSchema body) as [[[[[name image] stock] cat] price]|];
    [|reflexivity].
  run_route.
  destruct (int4in E cat) as [ct|]; [|reflexivity].
  rewrite existsb_filter_length.
  destruct (filter (fun c => cat_id c =? ct) (categories d)) as [|c0 cs];
    [reflexivity|].
  cbn [length Nat.leb Nat.ltb].
  destruct (has_nul name || has_nul image); [reflexivity|].
  destruct (asInteger stock) as [st|]; reflexivity.
Qed.

Lemma postCustomers_eq (E : backend) (body : customerBody) (d : catalogue) :
  postCustomers E body d =
  match customersSchema E body with
  | None => (Some 400, d)
  | Some (name, phone, cpf, birthday) =>
    if cpf_taken cpf d then (Some 409, d)
    else if has_nul name || has_nul birthday then (Some 500, d)
    else
      (Some 201,
       mkCatalogue (categories d) (categories_seq d)
         (gameRows d) (games_seq d)
         (customerRows d ++
            [mkCustomerRow (customers_seq d) name phone cpf birthday])
         (customers_seq d + 1))
  end.
Proof.
  unfold postCustomers, cpf_taken.
  destruct (customersSchema E body) as [[[[name phone] cpf] birthday]|]
    eqn:Hv; [|reflexivity].
  apply customersSchema_inv in Hv.
  destruct Hv as (_ & _ & _ & Hp & _ & Hc & _).
  apply all_digits_no_nul in Hp, Hc.
  run_route. rewrite Hc, Hp, !orb_false_r.
  destruct (existsb (fun c => String.eqb (cr_cpf c) cpf) (customerRows d))
    eqn:Ex.
  - rewrite existsb_filter_length in Ex. rewrite Ex. reflexivity.
  - pose proof Ex as Ex'. rewrite existsb_filter_length in Ex'.
    rewrite Ex'. run_route.
    destruct (has_nul name || has_nul birthday); [reflexivity|].
    rewrite Ex, andb_false_r. reflexivity.
Qed.

(** [PUT /customers/:id]: the rows numbered [n] are rewritten and come
    after the others. *)
Lemma putCustomers_eq (E : backend) (id : idParam) (body : customerBody)
      (d : catalogue) :
  putCustomers E id body d =
  match id with
  | IdMalformed => (None, d)
  | IdInt n =>
    match customersSchema E body with
    | None => (Some 400, d)
    | Some (name, phone, cpf, birthday) =>
      if has_nul name || has_nul birthday then (Some 500, d)
      else
      if cpf_is_unique E
         && existsb (fun c => cr_id c =? n) (customerRows d)
         && existsb (fun c => negb (cr_id c =? n)
                              && String.eqb (cr_cpf c) cpf)
                    (customerRows d)
      then (Some 500, d)
      else
        (Some 201,
         mkCatalogue (categories d) (categories_seq d)
           (gameRows d) (games_seq d)
           (filter (fun c => negb (cr_id c =? n)) (customerRows d)
            ++ map (fun c => mkCustomerRow (cr_id c) name phone cpf birthday)
                   (filter (fun c => cr_id c =? n) (customerRows d)))
           (customers_seq d))
    end
  end.
Proof.
  unfold putCustomers.
  destruct id as [n|]; [|reflexivity].
  run_route.
  destruct (customersSchema E body) as [[[[name phone] cpf] birthday]|]
    eqn:Hv; [|reflexivity].
  apply customersSchema_inv in Hv.
  destruct Hv as (_ & _ & _ & Hp & _ & Hc & _).
  apply all_digits_no_nul in Hp, Hc.
  run_route. rewrite Hc, Hp, !orb_false_r.
  destruct (filter (fun c => String.eqb (cr_cpf c) cpf) (customerRows d))
    as [|c0 cs] eqn:Ef; cbn [length Nat.leb Nat.ltb]; run_route;
    rewrite ?Hc, ?Ef; cbn [length Nat.leb Nat.ltb]; run_route;
    destruct (has_nul name || has_nul birthday); try reflexivity;
    destruct (cpf_is_unique E
              && existsb (fun c => cr_id c =? n) (customerRows d)
              && existsb (fun c => negb (cr_id c =? n)
                                   && String.eqb (cr_cpf c) cpf)
                         (customerRows d)); reflexivity.
Qed.

(** What one catalogue request does to each table. *)
Lemma catalogueStep_categories (E : backend) (o : catalogueOp) (d : catalogue) :
  (categories (catalogueStep E o d) = categories d /\
   categories_seq (catalogueStep E o d) = categories_seq d)
  \/
  (exists name,
      category_named name d = false /\
      categories (catalogueStep E o d)
      = categories d ++ [mkCategory (categories_seq d) name] /\
      categories_seq (catalogueStep E o d) = categories_seq d + 1).
Proof.
  destruct o as [v|body|body|id body]; cbn [catalogueStep].
  - rewrite postCategories_eq.
    destruct (categoriesSchema v) as [name|]; [|now left].
    destruct (has_nul name); [now left|].
    destruct (category_named name d) eqn:En; [now left|].
    right. exists name. split; [exact En|]. split; reflexivity.
  - left. rewrite postGames_eq.
    destruct (gamesSchema body) as [[[[[n i] s] c] p]|]; [|now split].
    destruct (int4in E c); [|now split].
    destruct (existsb _ (categories d)); [|now split].
    destruct (has_nul n || has_nul i); [now split|].
    destruct (asInteger s); now split.
  - left. rewrite postCustomers_eq.
    destruct (customersSchema E body) as [[[[n p] c] b]|]; [|now split].
    destruct (cpf_taken c d); [now split|].
    destruct (has_nul n || has_nul b); now split.
  - left. rewrite putCustomers_eq. destruct id; [|now split].
    destruct (customersSchema E body) as [[[[n' p] c] b]|]; [|now split].
    destruct (has_nul n' || has_nul b); [now split|].
    match goal with |- context [if ?c then _ else _] => destruct c end;
      now split.
Qed.

Lemma catalogueStep_gameRows (E : backend) (o : catalogueOp) (d : catalogue) :
  gameRows (catalogueStep E o d) = gameRows d
  \/
  (exists name image st ct price,
      1 <= st /\ (1 <= price)%Q /\
      existsb (fun c => cat_id c =? ct) (categories d) = true /\
      gameRows (catalogueStep E o d)
      = gameRows d ++ [mkGameRow (games_seq d) name image st ct price]).
Proof.
  destruct o as [v|body|body|id body]; cbn [catalogueStep].
  - left. rewrite postCategories_eq.
    destruct (categoriesSchema v) as [name|]; [|reflexivity].
    destruct (has_nul name); [reflexivity|].
    destruct (category_named name d); reflexivity.
  - rewrite postGames_eq.
    destruct (gamesSchema body) as [[[[[n i] s] c] p]|] eqn:Hv; [|now left].
    apply gamesSchema_inv in Hv. destruct Hv as (_ & _ & _ & _ & Hs & Hp).
    destruct (int4in E c) as [ct|]; [|now left].
    destruct (existsb (fun c0 => cat_id c0 =? ct) (categories d)) eqn:Hc;
      [|now left].
    destruct (has_nul n || has_nul i); [now left|].
    destruct (asInteger s) as [st|] eqn:Hst; [|now left].
    right. exists n, i, st, ct, p.
    split; [exact (integer_above_one s st Hs Hst)|].
    split; [exact Hp|]. split; [exact Hc|reflexivity].
  - left. rewrite postCustomers_eq.
    destruct (customersSchema E body) as [[[[n p] c] b]|]; [|reflexivity].
    destruct (cpf_taken c d); [reflexivity|].
    destruct (has_nul n || has_nul b); reflexivity.
  - left. rewrite putCustomers_eq. destruct id; [|reflexivity].
    destruct (customersSchema E body) as [[[[n' p] c] b]|]; [|reflexivity].
    destruct (has_nul n' || has_nul b); [reflexivity|].
    match goal with |- context [if ?c then _ else _] => destruct c end;
      reflexivity.
Qed.

Lemma catalogueStep_customerRows (E : backend) (o : catalogueOp)
      (d : catalogue) :
  customerRows (catalogueStep E o d) = customerRows d
  \/
  (exists name phone cpf birthday,
      wellformed_customer E (mkCustomerRow 0 name phone cpf birthday) /\
      (customerRows (catalogueStep E o d)
       = customerRows d
         ++ [mkCustomerRow (customers_seq d) name phone cpf birthday]
       \/
       exists n,
         customerRows (catalogueStep E o d)
         = filter (fun c => negb (cr_id c =? n)) (customerRows d)
           ++ map (fun c => mkCustomerRow (cr_id c) name phone cpf birthday)
                  (filter (fun c => cr_id c =? n) (customerRows d)))).
Proof.
  destruct o as [v|body|body|id body]; cbn [catalogueStep].
  - left. rewrite postCategories_eq.
    destruct (categoriesSchema v) as [name|]; [|reflexivity].
    destruct (has_nul name); [reflexivity|].
    destruct (category_named name d); reflexivity.
  - left. rewrite postGames_eq.
    destruct (gamesSchema body) as [[[[[n i] s] c] p]|]; [|reflexivity].
    destruct (int4in E c); [|reflexivity].
    destruct (existsb _ (categories d)); [|reflexivity].
    destruct (has_nul n || has_nul i); [reflexivity|].
    destruct (asInteger s); reflexivity.
  - rewrite postCustomers_eq.
    destruct (customersSchema E body) as [[[[n p] c] b]|] eqn:Hv;
      [|now left].
    destruct (cpf_taken c d); [now left|].
    destruct (has_nul n || has_nul b); [now left|].
    right. exists n, p, c, b. split; [|left; reflexivity].
    apply customersSchema_inv in Hv. unfold wellformed_customer. cbn. tauto.
  - rewrite putCustomers_eq. destruct id as [k|]; [|now left].
    destruct (customersSchema E body) as [[[[n p] c] b]|] eqn:Hv;
      [|now left].
    destruct (has_nul n || has_nul b); [now left|].
    match goal with |- context [if ?c then _ else _] => destruct c end;
      [now left|].
    right. exists n, p, c, b. split; [|right; exists k; reflexivity].
    apply customersSchema_inv in Hv. unfold wellformed_customer. cbn. tauto.
Qed.

(** ** Categories *)

(** X13: category names stay distinct.  If no two categories share a
    name, no sequence of catalogue requests makes two of them do. *)
Theorem category_names_stay_distinct :
  forall (E : backend) (d0 d : catalogue),
    NoDup (map cat_name (categories d0)) ->
    catalogueReachable E d0 d ->
    NoDup (map cat_name (categories d)).
Proof.
  intros E d0 d H0 Hr. induction Hr as [|d o Hr IH]; [exact H0|].
  destruct (catalogueStep_categories E o d)
    as [[-> _]|(name & En & -> & _)]; [exact IH|].
  rewrite map_app. cbn [map cat_name].
  apply NoDup_snoc; [exact IH|].
  intros Hin. apply in_map_iff in Hin. destruct Hin as (c & Hc & Hin).
  unfold category_named in En.
  assert (Ht : existsb (fun c => String.eqb (cat_name c) name)
                       (categories d) = true).
  { apply existsb_exists. exists c. split; [exact Hin|].
    now apply String.eqb_eq. }
  congruence.
Qed.

Lemma category_names_stay_distinct_witness :
  NoDup (map cat_name (categories strategy_catalogue)) /\
  catalogueReachable sample_backend strategy_catalogue
    (catalogueStep sample_backend (PostCategory (SStr "Strategy"))
       (catalogueStep sample_backend (PostCategory (SStr "Cards"))
          strategy_catalogue)) /\
  NoDup (map cat_name
           (categories
              (catalogueStep sample_backend (PostCategory (SStr "Strategy"))
                 (catalogueStep sample_backend (PostCategory (SStr "Cards"))
                    strategy_catalogue)))).
Proof.
  assert (H0 : NoDup (map cat_name (categories strategy_catalogue))).
  { cbn. constructor; [intros []|constructor]. }
  assert (Hr : catalogueReachable sample_backend strategy_catalogue
                 (catalogueStep sample_backend (PostCategory (SStr "Strategy"))
                    (catalogueStep sample_backend (PostCategory (SStr "Cards"))
                       strategy_catalogue))).
  { apply creach_step, creach_step, creach_start. }
  split; [exact H0|]. split; [exact Hr|].
  exact (category_names_stay_distinct sample_backend _ _ H0 Hr).
Defined.

(** X14: a category posted is a category listed, once.  Posting a
    non-empty name without the character of code 0 that no category
    carries answers 201 and [GET /categories] then lists the former rows
    followed by the new one; posting the same name again answers 409 and
    changes nothing.  A name that holds the character of code 0 is
    answered 500 and nothing is written. *)
Theorem category_post_then_list :
  forall (name : string) (d : catalogue),
    name <> EmptyString ->
    category_named name d = false ->
    (has_nul name = false ->
     fst (postCategories (SStr name) d) = Some 201 /\
     snd (getCategories (snd (postCategories (SStr name) d)))
     = snd (getCategories d) ++ [mkCategory (categories_seq d) name] /\
     postCategories (SStr name) (snd (postCategories (SStr name) d))
     = (Some 409, snd (postCategories (SStr name) d))) /\
    (has_nul name = true ->
     postCategories (SStr name) d = (Some 500, d)).
Proof.
  intros name d Hne Hnew.
  rewrite !postCategories_eq. unfold categoriesSchema.
  rewrite (string_required_intro name Hne), Hnew.
  split; intros Hnul; rewrite ?Hnul; [|reflexivity].
  cbn [fst snd].
  split; [reflexivity|]. split; [reflexivity|].
  unfold category_named at 1. cbn [categories].
  rewrite existsb_app. cbn [existsb cat_name].
  rewrite String.eqb_refl, orb_true_r. reflexivity.
Qed.

Lemma category_post_then_list_witness :
  "Cards"%string <> EmptyString /\
  category_named "Cards" strategy_catalogue = false /\
  has_nul "Cards" = false /\
  fst (postCategories (SStr "Cards") strategy_catalogue) = Some 201 /\
  snd (getCategories (snd (postCategories (SStr "Cards") strategy_catalogue)))
  = snd (getCategories strategy_catalogue)
    ++ [mkCategory (categories_seq strategy_catalogue) "Cards"] /\
  postCategories (SStr "Cards")
    (snd (postCategories (SStr "Cards") strategy_catalogue))
  = (Some 409, snd (postCategories (SStr "Cards") strategy_catalogue)).
Proof.
  assert (H1 : "Cards"%string <> EmptyString) by discriminate.
  assert (H2 : category_named "Cards" strategy_catalogue = false)
    by reflexivity.
  assert (H3 : has_nul "Cards" = false) by reflexivity.
  split; [exact H1|]. split; [exact H2|]. split; [exact H3|].
  exact (proj1 (category_post_then_list "Cards" strategy_catalogue H1 H2) H3).
Defined.

(** ** Games *)

(** X15: [POST /games] answers 201 only to a body whose [name], [image]
    and [categoryId] are non-empty strings, the latter text that reads
    as the id of an existing category, whose [stockTotal] is an integer
    of at least 1 and whose [pricePerDay] is at least 1; the game is then
    appended under the next serial number, and nothing else changes. *)
Theorem game_201_only_if :
  forall (E : backend) (body : gameBody) (d : catalogue),
    fst (postGames E body d) = Some 201 ->
    exists (name image cat : string) (stock price : Q) (st ct : Z),
      body = mkGameBody (SStr name) (SStr image) (JNum stock) (SStr cat)
               (JNum price) /\
      name <> EmptyString /\ image <> EmptyString /\
      int4in E cat = Some ct /\
      existsb (fun c => cat_id c =? ct) (categories d) = true /\
      (stock == inject_Z st)%Q /\ 1 <= st /\ (1 <= price)%Q /\
      snd (postGames E body d)
      = mkCatalogue (categories d) (categories_seq d)
          (gameRows d ++ [mkGameRow (games_seq d) name image st ct price])
          (games_seq d + 1)
          (customerRows d) (customers_seq d).
Proof.
  intros E body d. rewrite postGames_eq.
  destruct (gamesSchema body) as [[[[[n i] s] c] p]|] eqn:Hv;
    [|discriminate].
  apply gamesSchema_inv in Hv.
  destruct Hv as (Hb & Hn & Hi & _ & Hs & Hp).
  destruct (int4in E c) as [ct|] eqn:Hct; [|discriminate].
  destruct (existsb (fun c0 => cat_id c0 =? ct) (categories d)) eqn:Hc;
    [|discriminate].
  destruct (has_nul n || has_nul i); [discriminate|].
  destruct (asInteger s) as [st|] eqn:Hst; [|discriminate].
  intros _. exists n, i, c, s, p, st, ct. cbn [snd].
  split; [exact Hb|]. split; [exact Hn|]. split; [exact Hi|].
  split; [exact Hct|]. split; [exact Hc|].
  split; [now apply asInteger_sound|].
  split; [exact (integer_above_one s st Hs Hst)|].
  split; [exact Hp|reflexivity].
Qed.

Lemma game_201_only_if_witness :
  fst (postGames sample_backend chess_body strategy_catalogue) = Some 201 /\
  exists (name image cat : string) (stock price : Q) (st ct : Z),
    chess_body = mkGameBody (SStr name) (SStr image) (JNum stock) (SStr cat)
                   (JNum price) /\
    name <> EmptyString /\ image <> EmptyString /\
    int4in sample_backend cat = Some ct /\
    existsb (fun c => cat_id c =? ct) (categories strategy_catalogue) = true /\
    (stock == inject_Z st)%Q /\ 1 <= st /\ (1 <= price)%Q /\
    snd (postGames sample_backend chess_body strategy_catalogue)
    = mkCatalogue (categories strategy_catalogue)
        (categories_seq strategy_catalogue)
        (gameRows strategy_catalogue
           ++ [mkGameRow (games_seq strategy_catalogue) name image st ct price])
        (games_seq strategy_catalogue + 1)
        (customerRows strategy_catalogue) (customers_seq strategy_catalogue).
Proof.
  split.
  - vm_compute. reflexivity.
  - apply (game_201_only_if sample_backend chess_body strategy_catalogue).
    vm_compute. reflexivity.
Defined.

(** X16: a body whose [name] and [image] are non-empty and free of the
    character of code 0, whose [categoryId] is text that reads as the id
    of an existing category, whose [stockTotal] is an integer from 1 to
    2147483647 and whose [pricePerDay] is at least 1 and at most
    [2 ^ 53 - 1] is answered 201, and the game is appended under the
    next serial number. *)
Theorem game_created :
  forall (E : backend) (d : catalogue) (name image cat : string)
         (st ct : Z) (price : Q),
    name <> EmptyString -> image <> EmptyString -> cat <> EmptyString ->
    has_nul name = false -> has_nul image = false ->
    int4in E cat = Some ct ->
    existsb (fun c => cat_id c =? ct) (categories d) = true ->
    1 <= st <= int4_max ->
    (1 <= price)%Q -> (price <= inject_Z max_safe_integer)%Q ->
    postGames E
      (mkGameBody (SStr name) (SStr image) (JNum (inject_Z st)) (SStr cat)
         (JNum price)) d
    = (Some 201,
       mkCatalogue (categories d) (categories_seq d)
         (gameRows d ++ [mkGameRow (games_seq d) name image st ct price])
         (games_seq d + 1)
         (customerRows d) (customers_seq d)).
Proof.
  intros E d name image cat st ct price Hn Hi Hc Hnn Hni Hct Hex Hst Hp Hmax.
  assert (Hin : in_int4 st).
  { unfold in_int4, int4_min. lia. }
  pose proof (asInteger_inject_Z st Hin) as Hasst.
  rewrite postGames_eq. unfold gamesSchema. cbn [gb_name gb_image
    gb_stockTotal gb_categoryId gb_pricePerDay].
  rewrite !string_required_intro by assumption.
  unfold number_min.
  rewrite (int4_is_safe (inject_Z st) st Hasst).
  assert (Hsafe : is_safe price = true).
  { unfold is_safe. apply andb_true_intro.
    split; apply Qle_bool_iff; [|exact Hmax].
    apply Qle_trans with (y := 1%Q); [|exact Hp].
    unfold Qle, inject_Z, max_safe_integer. cbn. lia. }
  assert (Hs : Qle_bool 1 (inject_Z st) = true).
  { apply Qle_bool_iff. unfold Qle, inject_Z. cbn. lia. }
  apply Qle_bool_iff in Hp.
  rewrite Hsafe, Hs, Hp. cbn [andb].
  rewrite Hct, Hex, Hnn, Hni, Hasst. reflexivity.
Qed.

Lemma game_created_witness :
  "Chess"%string <> EmptyString /\ "c.png"%string <> EmptyString /\
  "1"%string <> EmptyString /\
  has_nul "Chess" = false /\ has_nul "c.png" = false /\
  int4in sample_backend "1" = Some 1 /\
  existsb (fun c => cat_id c =? 1) (categories strategy_catalogue) = true /\
  1 <= 2 <= int4_max /\
  (1 <= 10 # 1)%Q /\ (10 # 1 <= inject_Z max_safe_integer)%Q /\
  postGames sample_backend
    (mkGameBody (SStr "Chess") (SStr "c.png") (JNum (inject_Z 2)) (SStr "1")
       (JNum (10 # 1))) strategy_catalogue
  = (Some 201,
     mkCatalogue (categories strategy_catalogue)
       (categories_seq strategy_catalogue)
       (gameRows strategy_catalogue
          ++ [mkGameRow (games_seq strategy_catalogue) "Chess" "c.png" 2 1
                (10 # 1)])
       (games_seq strategy_catalogue + 1)
       (customerRows strategy_catalogue) (customers_seq strategy_catalogue)).
Proof.
  assert (H1 : "Chess"%string <> EmptyString) by discriminate.
  assert (H2 : "c.png"%string <> EmptyString) by discriminate.
  assert (H3 : "1"%string <> EmptyString) by discriminate.
  assert (N1 : has_nul "Chess" = false) by reflexivity.
  assert (N2 : has_nul "c.png" = false) by reflexivity.
  assert (H4 : int4in sample_backend "1" = Some 1) by reflexivity.
  assert (H5 : existsb (fun c => cat_id c =? 1)
                       (categories strategy_catalogue) = true) by reflexivity.
  assert (H6 : 1 <= 2 <= int4_max) by (unfold int4_max; lia).
  assert (H7 : (1 <= 10 # 1)%Q) by (unfold Qle; cbn; lia).
  assert (H8 : (10 # 1 <= inject_Z max_safe_integer)%Q)
    by (unfold Qle, max_safe_integer; cbn; lia).
  split; [exact H1|]. split; [exact H2|]. split; [exact H3|].
  split; [exact N1|]. split; [exact N2|].
  split; [exact H4|]. split; [exact H5|]. split; [exact H6|].
  split; [exact H7|]. split; [exact H8|].
  exact (game_created sample_backend strategy_catalogue "Chess" "c.png" "1"
           2 1 (10 # 1) H1 H2 H3 N1 N2 H4 H5 H6 H7 H8).
Defined.

(** X17: every game keeps a stock of at least one unit and a price of at
    least 1 a day: if this holds of the games of a catalogue, it holds
    after any sequence of catalogue requests. *)
Theorem games_keep_their_floor :
  forall (E : backend) (d0 d : catalogue),
    (forall g, In g (gameRows d0) -> game_floor g) ->
    catalogueReachable E d0 d ->
    forall g, In g (gameRows d) -> game_floor g.
Proof.
  intros E d0 d H0 Hr. induction Hr as [|d o Hr IH]; [exact H0|].
  destruct (catalogueStep_gameRows E o d)
    as [->|(n & i & st & ct & p & Hst & Hp & _ & ->)]; [exact IH|].
  intros g Hin. apply in_app_or in Hin.
  destruct Hin as [Hin|[<-|[]]]; [now apply IH|].
  split; assumption.
Qed.

Lemma games_keep_their_floor_witness :
  (forall g, In g (gameRows strategy_catalogue) -> game_floor g) /\
  catalogueReachable sample_backend strategy_catalogue
    (catalogueStep sample_backend (PostGame chess_body) strategy_catalogue) /\
  forall g,
    In g (gameRows (catalogueStep sample_backend (PostGame chess_body)
                      strategy_catalogue)) ->
    game_floor g.
Proof.
  assert (H0 : forall g, In g (gameRows strategy_catalogue) -> game_floor g).
  { cbn. intros g []. }
  assert (Hr : catalogueReachable sample_backend strategy_catalogue
                 (catalogueStep sample_backend (PostGame chess_body)
                    strategy_catalogue)).
  { apply creach_step, creach_start. }
  split; [exact H0|]. split; [exact Hr|].
  exact (games_keep_their_floor sample_backend _ _ H0 Hr).
Defined.





(** ** Customers *)

Lemma cpf_taken_spec (cpf : string) (d : catalogue) :
  cpf_taken cpf d = true <-> In cpf (map cr_cpf (customerRows d)).
Proof.
  unfold cpf_taken. rewrite existsb_exists, in_map_iff. split.
  - intros (c & Hin & Heq). apply String.eqb_eq in Heq. eauto.
  - intros (c & Heq & Hin). exists c. split; [exact Hin|].
    now apply String.eqb_eq.
Qed.

(** X19: [POST /customers] never gives a second customer a cpf that is
    already on file: if the cpfs of the table are distinct before the
    request, they are distinct after it, whatever the body. *)
Theorem post_customer_keeps_cpfs_distinct :
  forall (E : backend) (body : customerBody) (d : catalogue),
    NoDup (map cr_cpf (customerRows d)) ->
    NoDup (map cr_cpf (customerRows (snd (postCustomers E body d)))).
Proof.
  intros E body d Hnd. rewrite postCustomers_eq.
  destruct (customersSchema E body) as [[[[n p] c] b]|]; [|exact Hnd].
  destruct (cpf_taken c d) eqn:Ht; [exact Hnd|].
  destruct (has_nul n || has_nul b); [exact Hnd|].
  cbn [snd customerRows]. rewrite map_app. cbn [map cr_cpf].
  apply NoDup_snoc; [exact Hnd|].
  intros Hin. apply cpf_taken_spec in Hin. congruence.
Qed.

Lemma post_customer_keeps_cpfs_distinct_witness :
  NoDup (map cr_cpf (customerRows ana_catalogue)) /\
  NoDup (map cr_cpf
           (customerRows (snd (postCustomers sample_backend bea_body
                                 ana_catalogue)))).
Proof.
  assert (H0 : NoDup (map cr_cpf (customerRows ana_catalogue))).
  { cbn. constructor; [intros []|constructor]. }
  split; [exact H0|].
  exact (post_customer_keeps_cpfs_distinct sample_backend bea_body
           ana_catalogue H0).
Defined.

(** X20: only validated data reaches the table of customers.  If every
    customer on file has a non-empty name, a phone of 10 or 11 digits, a
    cpf of 11 digits and a birthday that the date check accepts, the same
    holds after any sequence of catalogue requests, [PUT] included. *)
Theorem customers_stay_wellformed :
  forall (E : backend) (d0 d : catalogue),
    (forall c, In c (customerRows d0) -> wellformed_customer E c) ->
    catalogueReachable E d0 d ->
    forall c, In c (customerRows d) -> wellformed_customer E c.
Proof.
  intros E d0 d H0 Hr. induction Hr as [|d o Hr IH]; [exact H0|].
  destruct (catalogueStep_customerRows E o d)
    as [->|(n & p & cpf & b & Hwf & [->|(k & ->)])]; [exact IH| |].
  - intros c Hin. apply in_app_or in Hin.
    destruct Hin as [Hin|[<-|[]]]; [now apply IH|exact Hwf].
  - intros c Hin. apply in_app_or in Hin. destruct Hin as [Hin|Hin].
    + apply filter_In in Hin. now apply IH.
    + apply in_map_iff in Hin. destruct Hin as (c0 & <- & _). exact Hwf.
Qed.

Lemma customers_stay_wellformed_witness :
  (forall c, In c (customerRows empty_catalogue) ->
             wellformed_customer sample_backend c) /\
  catalogueReachable sample_backend empty_catalogue
    (catalogueStep sample_backend (PutCustomer (IdInt 1) bea_body)
       (catalogueStep sample_backend (PostCustomer ana_body)
          empty_catalogue)) /\
  forall c,
    In c (customerRows
            (catalogueStep sample_backend (PutCustomer (IdInt 1) bea_body)
               (catalogueStep sample_backend (PostCustomer ana_body)
                  empty_catalogue))) ->
    wellformed_customer sample_backend c.
Proof.
  assert (H0 : forall c, In c (customerRows empty_catalogue) ->
                         wellformed_customer sample_backend c).
  { cbn. intros c []. }
  assert (Hr : catalogueReachable sample_backend empty_catalogue
                 (catalogueStep sample_backend (PutCustomer (IdInt 1) bea_body)
                    (catalogueStep sample_backend (PostCustomer ana_body)
                       empty_catalogue))).
  { apply creach_step, creach_step, creach_start. }
  split; [exact H0|]. split; [exact Hr|].
  exact (customers_stay_wellformed sample_backend _ _ H0 Hr).
Defined.






(** The rewritten customer is listed after the others: with Ana (1) and
    Bea (2) on file, rewriting Ana leaves the table as Bea, Ana. *)
Example put_customer_moves_the_row_last :
  map cr_id
      (customerRows (snd (putCustomers sample_backend (IdInt 1)
                            ana_moved_body pair_catalogue)))
  = [2; 1].
Proof. vm_compute. reflexivity. Qed.

(** X24: [PUT /customers/:id] neither adds nor removes a customer and
    touches no other table: whatever the id and the body, the table of
    customers holds after the request the ids it held before, each as
    often as before, and the categories, the games and the three serials
    are what they were. *)
Theorem put_customer_keeps_ids_and_tables :
  forall (E : backend) (id : idParam) (body : customerBody) (d : catalogue),
    Permutation
      (map cr_id (customerRows (snd (putCustomers E id body d))))
      (map cr_id (customerRows d)) /\
    categories (snd (putCustomers E id body d)) = categories d /\
    gameRows (snd (putCustomers E id body d)) = gameRows d /\
    categories_seq (snd (putCustomers E id body d)) = categories_seq d /\
    games_seq (snd (putCustomers E id body d)) = games_seq d /\
    customers_seq (snd (putCustomers E id body d)) = customers_seq d.
Proof.
  intros E id body d. rewrite putCustomers_eq.
  destruct id as [n|]; [|cbn [snd]; repeat split; apply Permutation_refl].
  destruct (customersSchema E body) as [[[[nm p] c] b]|];
    [|cbn [snd]; repeat split; apply Permutation_refl].
  destruct (has_nul nm || has_nul b);
    [cbn [snd]; repeat split; apply Permutation_refl|].
  match goal with |- context [if ?c then _ else _] => destruct c end;
    cbn [snd customerRows categories gameRows categories_seq games_seq
         customers_seq]; [repeat split; apply Permutation_refl|].
  split; [|repeat split].
  rewrite map_app, map_map. cbn [cr_id]. rewrite <- map_app.
  apply Permutation_map, filter_split_perm.
Qed.

(** X25: a customer posted is a customer on file, once.  A valid body,
    whose name and birthday are free of the character of code 0 and
    whose cpf is not on file, is answered 201 and the table of customers
    then holds the former rows followed by one with the four fields of
    the body, numbered by the serial; the same body posted again is
    answered 409 and changes nothing. *)
Theorem customer_post_then_list :
  forall (E : backend) (body : customerBody) (d : catalogue)
         (name phone cpf birthday : string),
    customersSchema E body = Some (name, phone, cpf, birthday) ->
    has_nul name = false -> has_nul birthday = false ->
    cpf_taken cpf d = false ->
    fst (postCustomers E body d) = Some 201 /\
    customerRows (snd (postCustomers E body d))
    = customerRows d
      ++ [mkCustomerRow (customers_seq d) name phone cpf birthday] /\
    postCustomers E body (snd (postCustomers E body d))
    = (Some 409, snd (postCustomers E body d)).
Proof.
  intros E body d name phone cpf birthday Hv Hnn Hnb Hfree.
  rewrite !postCustomers_eq, Hv, Hfree, Hnn, Hnb. cbn [orb fst snd].
  split; [reflexivity|]. split; [reflexivity|].
  unfold cpf_taken at 1. cbn [customerRows].
  rewrite existsb_app. cbn [existsb cr_cpf].
  rewrite String.eqb_refl, orb_true_r. reflexivity.
Qed.

Lemma customer_post_then_list_witness :
  customersSchema sample_backend bea_body
  = Some ("Bea", "2199889922", "11122233344", "1990-05-17")%string /\
  has_nul "Bea" = false /\ has_nul "1990-05-17" = false /\
  cpf_taken "11122233344" ana_catalogue = false /\
  fst (postCustomers sample_backend bea_body ana_catalogue) = Some 201 /\
  customerRows (snd (postCustomers sample_backend bea_body ana_catalogue))
  = customerRows ana_catalogue
    ++ [mkCustomerRow (customers_seq ana_catalogue) "Bea" "2199889922"
          "11122233344" "1990-05-17"] /\
  postCustomers sample_backend bea_body
    (snd (postCustomers sample_backend bea_body ana_catalogue))
  = (Some 409, snd (postCustomers sample_backend bea_body ana_catalogue)).
Proof.
  assert (H1 : customersSchema sample_backend bea_body
               = Some ("Bea", "2199889922", "11122233344",
                       "1990-05-17")%string) by reflexivity.
  assert (N1 : has_nul "Bea" = false) by reflexivity.
  assert (N2 : has_nul "1990-05-17" = false) by reflexivity.
  assert (H2 : cpf_taken "11122233344" ana_catalogue = false)
    by reflexivity.
  split; [exact H1|]. split; [exact N1|]. split; [exact N2|].
  split; [exact H2|].
  exact (customer_post_then_list sample_backend bea_body ana_catalogue
           _ _ _ _ H1 N1 N2 H2).
Defined.

(** ** From the catalogue to the ledger *)

Lemma find_app_skip {A : Type} (f : A -> bool) (l l' : list A) :
  (forall x, In x l -> f x = false) -> find f (l ++ l') = find f l'.
Proof.
  induction l as [|a l IH]; intros H; [reflexivity|].
  cbn [app find]. rewrite (H a (or_introl eq_refl)).
  apply IH. intros x Hx. apply H. now right.
Qed.

(** X26: what the catalogue routes create, the rental route accepts.
    After [POST /games] answered 201 for a game and [POST /customers]
    answered 201 for a customer, a request by that customer for that game
    (they carry the serial numbers the tables had, which fit an integer
    column), for a number of days from 1 to 2147483647 and on an empty
    ledger, is answered 201 whenever the product of the [pricePerDay]
    given when the game was posted and the days, computed in double
    precision, is finite; the rental costs that product.  The game's
    number must not already be in use. *)
Theorem posted_game_can_be_rented :
  forall (E : backend) (gbody : gameBody) (cbody : customerBody)
         (d d1 d2 : catalogue) (now : date) (di : Z) (price pr : Q),
    postGames E gbody d = (Some 201, d1) ->
    postCustomers E cbody d1 = (Some 201, d2) ->
    (forall g, In g (gameRows d) -> gr_id g <> games_seq d) ->
    in_int4 (games_seq d) -> in_int4 (customers_seq d) ->
    0 < di <= int4_max ->
    gb_pricePerDay gbody = JNum price ->
    js_mul price (inject_Z di) = Some pr ->
    postRentals now
      (body_of (inject_Z (customers_seq d)) (inject_Z (games_seq d))
         (inject_Z di))
      (rental_store d2 [] 1 0)
    = (Some 201,
       rental_store d2
         [mkRental 1 (customers_seq d) (games_seq d) now di None pr None]
         2 1).
Proof.
  intros E gbody cbody d d1 d2 now di price pr Hg Hc Hfresh Hgs Hcs Hdi
         Hprice Hmul.
  rewrite postGames_eq in Hg.
  destruct (gamesSchema gbody) as [[[[[n i] s] c] p]|] eqn:Hv;
    [|discriminate].
  apply gamesSchema_inv in Hv. destruct Hv as (Hb & _ & _ & _ & Hs & _).
  assert (p = price) as ->.
  { rewrite Hb in Hprice. cbn [gb_pricePerDay] in Hprice. congruence. }
  destruct (int4in E c) as [ct|]; [|discriminate].
  destruct (existsb _ (categories d)); [|discriminate].
  destruct (has_nul n || has_nul i); [discriminate|].
  destruct (asInteger s) as [st|] eqn:Hst; [|discriminate].
  injection Hg as <-.
  rewrite postCustomers_eq in Hc.
  destruct (customersSchema E cbody) as [[[[cn cp] cc] cb]|];
    [|discriminate].
  match type of Hc with (if ?b then _ else _) = _ => destruct b end;
    [discriminate|].
  destruct (has_nul cn || has_nul cb); [discriminate|].
  injection Hc as <-. cbn [customerRows customers_seq gameRows].
  pose proof (integer_above_one s st Hs Hst) as Hst1.
  assert (Hdi4 : in_int4 di) by (unfold in_int4, int4_min; lia).
  pose proof (asInteger_inject_Z _ Hcs) as Hac.
  pose proof (asInteger_inject_Z _ Hgs) as Hag.
  pose proof (asInteger_inject_Z _ Hdi4) as Had.
  rewrite (postRentals_succeeds now _ _
             (inject_Z (customers_seq d)) (inject_Z (games_seq d))
             (inject_Z di) (customers_seq d) (games_seq d) di
             (mkGame (games_seq d) st price) pr).
  - reflexivity.
  - apply rentalsReqSchema_intro; try reflexivity.
    + exact (int4_is_safe _ _ Hac).
    + exact (int4_is_safe _ _ Hag).
    + exact (int4_is_safe _ _ Had).
  - exact Hac.
  - exact Hag.
  - exact Had.
  - unfold game_by_id, rental_store. cbn [games gameRows].
    rewrite map_app, find_app_skip.
    + cbn [map find gr_id g_id]. rewrite Z.eqb_refl. reflexivity.
    + intros x Hx. apply in_map_iff in Hx.
      destruct Hx as (g & <- & Hin). cbn [g_id].
      apply Z.eqb_neq. now apply Hfresh.
  - unfold customer_known, rental_store. cbn [customers customerRows].
    rewrite map_app, existsb_app. cbn [map existsb c_id cr_id].
    rewrite Z.eqb_refl, orb_true_r. reflexivity.
  - unfold Qlt, inject_Z. cbn. lia.
  - exact Hmul.
  - unfold rentals_of, rental_store. cbn [rentals filter length stockTotal].
    lia.
Qed.

Lemma posted_game_can_be_rented_witness :
  postGames sample_backend chess_body strategy_catalogue
  = (Some 201,
     snd (postGames sample_backend chess_body strategy_catalogue)) /\
  postCustomers sample_backend ana_body
    (snd (postGames sample_backend chess_body strategy_catalogue))
  = (Some 201,
     snd (postCustomers sample_backend ana_body
            (snd (postGames sample_backend chess_body strategy_catalogue)))) /\
  (forall g, In g (gameRows strategy_catalogue) ->
             gr_id g <> games_seq strategy_catalogue) /\
  in_int4 (games_seq strategy_catalogue) /\
  in_int4 (customers_seq strategy_catalogue) /\
  0 < 3 <= int4_max /\
  gb_pricePerDay chess_body = JNum (10 # 1) /\
  js_mul (10 # 1) (inject_Z 3) = Some (30 # 1) /\
  postRentals 20
    (body_of (inject_Z (customers_seq strategy_catalogue))
       (inject_Z (games_seq strategy_catalogue)) (inject_Z 3))
    (rental_store
       (snd (postCustomers sample_backend ana_body
               (snd (postGames sample_backend chess_body
                       strategy_catalogue))))
       [] 1 0)
  = (Some 201,
     rental_store
       (snd (postCustomers sample_backend ana_body
               (snd (postGames sample_backend chess_body
                       strategy_catalogue))))
       [mkRental 1 (customers_seq strategy_catalogue)
          (games_seq strategy_catalogue) 20 3 None (30 # 1) None]
       2 1).
Proof.
  assert (H1 : postGames sample_backend chess_body strategy_catalogue
               = (Some 201,
                  snd (postGames sample_backend chess_body
                         strategy_catalogue))) by reflexivity.
  assert (H2 : postCustomers sample_backend ana_body
                 (snd (postGames sample_backend chess_body
                         strategy_catalogue))
               = (Some 201,
                  snd (postCustomers sample_backend ana_body
                         (snd (postGames sample_backend chess_body
                                 strategy_catalogue))))) by reflexivity.
  assert (H3 : forall g, In g (gameRows strategy_catalogue) ->
                         gr_id g <> games_seq strategy_catalogue).
  { cbn. intros g []. }
  assert (H4 : in_int4 (games_seq strategy_catalogue)).
  { unfold in_int4, int4_min, int4_max. cbn. lia. }
  assert (H5 : in_int4 (customers_seq strategy_catalogue)).
  { unfold in_int4, int4_min, int4_max. cbn. lia. }
  assert (H6 : 0 < 3 <= int4_max) by (unfold int4_max; lia).
  assert (H7 : gb_pricePerDay chess_body = JNum (10 # 1)) by reflexivity.
  assert (H8 : js_mul (10 # 1) (inject_Z 3) = Some (30 # 1)).
  { vm_compute. reflexivity. }
  split; [exact H1|]. split; [exact H2|]. split; [exact H3|].
  split; [exact H4|]. split; [exact H5|]. split; [exact H6|].
  split; [exact H7|]. split; [exact H8|].
  exact (posted_game_can_be_rented sample_backend chess_body ana_body
           strategy_catalogue _ _ 20 3 (10 # 1) (30 # 1)
           H1 H2 H3 H4 H5 H6 H7 H8).
Defined.

(** X27: [gamesSchema] asks for [categoryId] as a string.  A body whose
    [categoryId] is anything else, a JSON number included, is answered
    400 and nothing is written, even when the category exists and the
    other fields are fine. *)
Theorem game_with_numeric_category_rejected :
  forall (E : backend) (body : gameBody) (d : catalogue),
    (forall s, gb_categoryId body <> SStr s) ->
    postGames E body d = (Some 400, d).
Proof.
  intros E body d Hns. rewrite postGames_eq.
  destruct (gamesSchema body) as [[[[[n i] s] c] p]|] eqn:Hv;
    [|reflexivity].
  apply gamesSchema_inv in Hv. destruct Hv as (Hb & _).
  exfalso. apply (Hns c). rewrite Hb. reflexivity.
Qed.

Lemma game_with_numeric_category_rejected_witness :
  (forall s,
      gb_categoryId
        (mkGameBody (SStr "Chess") (SStr "c.png") (JNum 2) SOther
           (JNum (10 # 1)))
      <> SStr s) /\
  postGames sample_backend
    (mkGameBody (SStr "Chess") (SStr "c.png") (JNum 2) SOther (JNum (10 # 1)))
    strategy_catalogue
  = (Some 400, strategy_catalogue).
Proof.
  assert (H : forall s,
             gb_categoryId
               (mkGameBody (SStr "Chess") (SStr "c.png") (JNum 2) SOther
                  (JNum (10 # 1)))
             <> SStr s) by (intros s; discriminate).
  split; [exact H|].
  exact (game_with_numeric_category_rejected sample_backend _
           strategy_catalogue H).
Defined.
